(** * Volume usage audit: a shallow embedding of
      [cinder/cmd/volume_usage_audit.py] and its audit-window and
      notification contract.

    The script computes an audit window, lists the volumes, snapshots and
    backups active in it, and sends an "exists" notification (and, with
    [send_actions], create and delete pairs) for each record.  The storage
    layer, the notifier, the clock and the logger are collaborators: the
    first three are parameters of the development, calls to them and to the
    logger are recorded in an event trace. *)

From Stdlib Require Import List String Ascii NArith ZArith Bool Lia.
Import ListNotations.
Local Open Scope string_scope.

(* ================================================================== *)
(** ** Python's [datetime.datetime] *)

Module Datetime.

(** A naive [datetime.datetime]: the civil fields, no [tzinfo]. *)
Record datetime := mkDatetime {
  year : N; month : N; day : N;
  hour : N; minute : N; second : N; microsecond : N
}.

(** The only [tzinfo] the script attaches is [iso8601.UTC]. *)
Inductive tzinfo := UTC.

(** A timezone-aware datetime, as [d.replace(tzinfo=tz)] builds it. *)
Record aware := mkAware { naive : datetime; tz : tzinfo }.

(** [d.replace(tzinfo=iso8601.UTC)]: the civil fields are kept as they are,
    the zone is attached (no conversion of the clock time). *)
Definition replace_tzinfo (d : datetime) (z : tzinfo) : aware := mkAware d z.

(** Comparison of two datetimes: lexicographic on
    (year, month, day, hour, minute, second, microsecond). *)
Definition lex (c : comparison) (k : comparison) : comparison :=
  match c with Eq => k | _ => c end.

Definition compare_naive (a b : datetime) : comparison :=
  lex (N.compare (year a) (year b))
 (lex (N.compare (month a) (month b))
 (lex (N.compare (day a) (day b))
 (lex (N.compare (hour a) (hour b))
 (lex (N.compare (minute a) (minute b))
 (lex (N.compare (second a) (second b))
      (N.compare (microsecond a) (microsecond b))))))).

(** Two aware datetimes in the same zone compare by their civil fields. *)
Definition compare (a b : aware) : comparison :=
  compare_naive (naive a) (naive b).

(** [a < b] and [a <= b] on aware datetimes. *)
Definition ltb (a b : aware) : bool :=
  match compare a b with Lt => true | _ => false end.
Definition leb (a b : aware) : bool :=
  match compare a b with Gt => false | _ => true end.

(** *** [str(d)], that is [d.isoformat(sep=' ')] *)

Definition digit (n : N) : ascii := ascii_of_N (48 + n mod 10).

(** [w] decimal digits of [n], zero padded (the ["%0wd"] of isoformat). *)
Fixpoint pad (w : nat) (n : N) : string :=
  match w with
  | O => ""
  | S w' => pad w' (n / 10) ++ String (digit n) ""
  end.

Definition isoformat_naive (d : datetime) : string :=
  pad 4 (year d) ++ "-" ++ pad 2 (month d) ++ "-" ++ pad 2 (day d) ++ " "
  ++ pad 2 (hour d) ++ ":" ++ pad 2 (minute d) ++ ":" ++ pad 2 (second d)
  ++ (if N.eqb (microsecond d) 0 then "" else "." ++ pad 6 (microsecond d)).

Definition utcoffset_str (z : tzinfo) : string :=
  match z with UTC => "+00:00" end.

Definition str (a : aware) : string :=
  isoformat_naive (naive a) ++ utcoffset_str (tz a).

End Datetime.

(* ================================================================== *)
(** ** [datetime.datetime.strptime(s, "%Y-%m-%d %H:%M:%S")] *)

Module Strptime.
Import Datetime.

(** The option value is read as a sequence of code points below 256.  The
    format is compiled by Python's [_strptime] to the regular expression
      (\d\d\d\d)-(1[0-2]|0[1-9]|[1-9])-(3[0-1]|[1-2]\d|0[1-9]|[1-9]| [1-9])
      \s+(2[0-3]|[0-1]\d|\d):([0-5]\d|\d):(6[0-1]|[0-5]\d|\d)
    matched at the start of the string with ordered alternatives and
    backtracking; the first match must consume the whole string, and the
    fields must pass the range checks of the [datetime] constructor. *)
Definition text := list ascii.

(** A matcher lists its matches, in the order backtracking tries them, each
    as (matched text, remaining text). *)
Definition matcher := text -> list (text * text).

Definition between (lo hi : N) (c : ascii) : bool :=
  (lo <=? N_of_ascii c)%N && (N_of_ascii c <=? hi)%N.

(** [\d], [[a-b]] on digits, and [\s]. *)
Definition d_ : ascii -> bool := between 48 57.
Definition range (a b : N) : ascii -> bool := between (48 + a) (48 + b).
Definition s_ (c : ascii) : bool :=
  between 9 13 c || between 28 32 c
  || (N_of_ascii c =? 133)%N || (N_of_ascii c =? 160)%N.

Definition cls (p : ascii -> bool) : matcher := fun s =>
  match s with
  | c :: r => if p c then [([c], r)] else []
  | [] => []
  end.

Definition lit (c : ascii) : matcher := cls (Ascii.eqb c).

Definition seq (m1 m2 : matcher) : matcher := fun s =>
  flat_map (fun ar => map (fun br => ((fst ar ++ fst br)%list, snd br)) (m2 (snd ar)))
           (m1 s).

Definition alt (m1 m2 : matcher) : matcher := fun s => (m1 s ++ m2 s)%list.

(** Greedy [p+]: the longest run first, then the shorter ones. *)
Fixpoint plus (p : ascii -> bool) (s : text) : list (text * text) :=
  match s with
  | c :: r =>
      if p c
      then (map (fun ar => (c :: fst ar, snd ar)) (plus p r) ++ [([c], r)])%list
      else []
  | [] => []
  end.

Declare Scope re_scope.
Delimit Scope re_scope with re.
Infix ";;" := seq (at level 40, left associativity) : re_scope.
Infix "|||" := alt (at level 50, left associativity) : re_scope.

Definition re_Y : matcher := (cls d_ ;; cls d_ ;; cls d_ ;; cls d_)%re.
Definition re_m : matcher :=
  ((lit "1" ;; cls (range 0 2)) ||| (lit "0" ;; cls (range 1 9))
   ||| cls (range 1 9))%re.
Definition re_d : matcher :=
  ((lit "3" ;; cls (range 0 1)) ||| (cls (range 1 2) ;; cls d_)
   ||| (lit "0" ;; cls (range 1 9)) ||| cls (range 1 9)
   ||| (lit " " ;; cls (range 1 9)))%re.
Definition re_H : matcher :=
  ((lit "2" ;; cls (range 0 3)) ||| (cls (range 0 1) ;; cls d_)
   ||| cls d_)%re.
Definition re_M : matcher := ((cls (range 0 5) ;; cls d_) ||| cls d_)%re.
Definition re_S : matcher :=
  ((lit "6" ;; cls (range 0 1)) ||| (cls (range 0 5) ;; cls d_)
   ||| cls d_)%re.

(** [int(group)] on a matched group: decimal digits, blanks skipped. *)
Definition int (t : text) : N :=
  fold_left (fun acc c => if d_ c then (10 * acc + (N_of_ascii c - 48))%N
                          else acc) t 0%N.

(** A named group followed by the rest of the pattern. *)
Definition group {A} (m : matcher) (k : N -> text -> list (A * text))
  : text -> list (A * text) :=
  fun s => flat_map (fun ar => k (int (fst ar)) (snd ar)) (m s).

Definition skip {A} (m : matcher) (k : text -> list (A * text))
  : text -> list (A * text) :=
  fun s => flat_map (fun ar => k (snd ar)) (m s).

Definition format_regex : text -> list (datetime * text) :=
  group re_Y (fun Y => skip (lit "-") (
  group re_m (fun m => skip (lit "-") (
  group re_d (fun d => skip (plus s_) (
  group re_H (fun H => skip (lit ":") (
  group re_M (fun M => skip (lit ":") (
  group re_S (fun S rest => [(mkDatetime Y m d H M S 0, rest)]))))))))))).

Definition is_leap (y : N) : bool :=
  ((y mod 4 =? 0) && (negb (y mod 100 =? 0) || (y mod 400 =? 0)))%N.

Definition days_in_month (y m : N) : N :=
  if (m =? 2)%N then (if is_leap y then 29 else 28)%N
  else if ((m =? 4) || (m =? 6) || (m =? 9) || (m =? 11))%N then 30%N
  else 31%N.

(** The range checks of [datetime.datetime(...)]. *)
Definition valid (t : datetime) : bool :=
  ((1 <=? year t) && (year t <=? 9999) && (1 <=? month t) && (month t <=? 12)
   && (1 <=? day t) && (day t <=? days_in_month (year t) (month t))
   && (hour t <=? 23) && (minute t <=? 59) && (second t <=? 59)
   && (microsecond t <=? 999999))%N.

(** [None] stands for the [ValueError] that [strptime] raises. *)
Definition strptime (date_string : string) : option datetime :=
  match format_regex (list_ascii_of_string date_string) with
  | [] => None                       (* does not match the format *)
  | (t, _ :: _) :: _ => None         (* unconverted data remains *)
  | (t, []) :: _ => if valid t then Some t else None
  end.

End Strptime.

(* ================================================================== *)
(** ** The audit script *)

Module Audit.
Import Datetime.

(** The command-line options registered in [script_opts]. *)
Record conf := mkConf {
  start_time : option string;
  end_time : option string;
  send_actions : bool
}.

(** A Volume, Snapshot or Backup object, with the fields the script reads.
    The object layer delivers its timestamps timezone-aware in UTC, so
    that they compare with the window bounds; [created_at] is always set,
    [deleted_at] may be [None]. *)
Record obj_ref := mkObj {
  id : string;
  project_id : string;
  created_at : aware;
  deleted_at : option aware
}.

Inductive kind := Volume | Snapshot | Backup.

(** The [extra_info] dictionaries: two fixed keys.  The script never
    updates one after building it and the notifier only reads it, so it is
    passed as a value. *)
Record extra_info := mkExtra {
  audit_period_beginning : string;
  audit_period_ending : string
}.

Inductive context := AdminContext.
Inductive logger := Logger (name : string).

(** An instance of Python's [Exception]: its class and its text. *)
Record exn := mkExn { exn_class : string; exn_text : string }.

(** What ends a run early: an uncaught [Exception], or the [SystemExit] of
    [sys.exit(code)], which [except Exception] does not catch. *)
Inductive failure := Raise (e : exn) | SystemExit (code : Z).

Inductive level := DEBUG | INFO | ERROR.

Inductive log_arg :=
| AStr (s : string)
| AInfo (x : extra_info)
| ATime (t : aware)
| AExn (e : exn)
| ALen (n : nat).

(** The calls the script makes to its collaborators, with their results.
    A log call keeps its format string and its arguments (a positional
    argument has the empty key). *)
Inductive event :=
| EvLog (lvl : level) (fmt : string) (args : list (string * log_arg))
        (resource : option obj_ref)
| EvFetch (k : kind) (ctx : context) (b e : aware)
          (res : exn + list obj_ref)
| EvNotify (k : kind) (ctx : context) (r : obj_ref) (event_suffix : string)
           (extra_usage_info : extra_info) (res : option exn).

Section Script.

(** The collaborators.  [World] is whatever state they have (the database,
    the message bus, the clock); a collaborator that fails raises an
    [Exception]. *)
Variable World : Type.
Variable utils_last_completed_audit_period : World -> datetime * datetime.
Variable objects_get_all_active_by_window :
  kind -> context -> aware -> aware -> World -> (exn + list obj_ref) * World.
Variable volume_utils_notify_about_usage :
  kind -> context -> obj_ref -> string -> extra_info ->
  World -> option exn * World.

(** The global [CONF], after the command line has been parsed. *)
Variable CONF : conf.

(** *** Computations: world passing, an event trace, early exit *)

Definition M (A : Type) : Type := World -> (failure + A) * World * list event.

Definition ret {A} (a : A) : M A := fun w => (inr a, w, []).

Definition bind {A B} (m : M A) (k : A -> M B) : M B := fun w =>
  match m w with
  | (inl f, w1, t1) => (inl f, w1, t1)
  | (inr a, w1, t1) =>
      match k a w1 with (r, w2, t2) => (r, w2, (t1 ++ t2)%list) end
  end.

Notation "x <- m ;; k" := (bind m (fun x => k))
  (at level 61, m at next level, right associativity).
Notation "m ;; k" := (bind m (fun _ => k))
  (at level 61, right associativity).

Definition raise {A} (e : exn) : M A := fun w => (inl (Raise e), w, []).

(** [sys.exit(code)] *)
Definition sys_exit {A} (code : Z) : M A :=
  fun w => (inl (SystemExit code), w, []).

(** [try: body / except Exception as e: handler e] *)
Definition try_except {A} (body : M A) (handler : exn -> M A) : M A :=
  fun w =>
  match body w with
  | (inl (Raise e), w1, t1) =>
      match handler e w1 with (r, w2, t2) => (r, w2, (t1 ++ t2)%list) end
  | other => other
  end.

(** Record a call in the trace.  Logging itself does not fail. *)
Definition emit (ev : event) : M unit := fun w => (inr tt, w, [ev]).

(** [for x in l: body x] *)
Fixpoint for_each {A} (l : list A) (body : A -> M unit) : M unit :=
  match l with
  | [] => ret tt
  | x :: l' => body x ;; for_each l' body
  end.

Definition LOG_debug (LOG : logger) fmt args : M unit :=
  emit (EvLog DEBUG fmt args None).
Definition LOG_info (LOG : logger) fmt args : M unit :=
  emit (EvLog INFO fmt args None).
Definition LOG_error (LOG : logger) fmt args resource : M unit :=
  emit (EvLog ERROR fmt args resource).

(** *** Calls to the collaborators *)

Definition get_admin_context : context := AdminContext.
Definition getLogger (name : string) : logger := Logger name.

Definition last_completed_audit_period : M (datetime * datetime) :=
  fun w => (inr (utils_last_completed_audit_period w), w, []).

Definition get_all_active_by_window (k : kind) (ctx : context)
    (begin end_ : aware) : M (list obj_ref) := fun w =>
  match objects_get_all_active_by_window k ctx begin end_ w with
  | (inl e, w1) => (inl (Raise e), w1, [EvFetch k ctx begin end_ (inl e)])
  | (inr l, w1) => (inr l, w1, [EvFetch k ctx begin end_ (inr l)])
  end.

Definition notify_about_usage_of (k : kind) (ctx : context) (r : obj_ref)
    (event_suffix : string) (extra_usage_info : extra_info) : M unit :=
  fun w =>
  match volume_utils_notify_about_usage k ctx r event_suffix
          extra_usage_info w with
  | (Some e, w1) =>
      (inl (Raise e), w1,
       [EvNotify k ctx r event_suffix extra_usage_info (Some e)])
  | (None, w1) =>
      (inr tt, w1, [EvNotify k ctx r event_suffix extra_usage_info None])
  end.

Definition notify_about_volume_usage := notify_about_usage_of Volume.
Definition notify_about_snapshot_usage := notify_about_usage_of Snapshot.
Definition notify_about_backup_usage := notify_about_usage_of Backup.

(** [datetime.datetime.strptime(s, "%Y-%m-%d %H:%M:%S")]; the text of the
    [ValueError] is not modelled. *)
Definition datetime_strptime (s : string) : M datetime :=
  match Strptime.strptime s with
  | Some d => ret d
  | None => raise (mkExn "ValueError" s)
  end.

(** *** The functions of the script *)

(** [if CONF.opt:] an option that is [None] or empty is not applied. *)
Definition override (opt : option string) (default : datetime) : M datetime :=
  match opt with
  | Some s => if String.eqb s "" then ret default else datetime_strptime s
  | None => ret default
  end.

Definition time_error_msg (begin end_ : aware) : string :=
  "The end time (" ++ str end_ ++ ") must be after the start time ("
  ++ str begin ++ ").".

Definition _time_error (LOG : logger) (begin end_ : datetime)
  : M (aware * aware) :=
  begin <- override (start_time CONF) begin ;;
  end_ <- override (end_time CONF) end_ ;;
  let begin := replace_tzinfo begin UTC in
  let end_ := replace_tzinfo end_ UTC in
  if leb end_ begin then
    LOG_error LOG (time_error_msg begin end_) [] None ;;
    sys_exit (-1)
  else ret (begin, end_).

Definition _vol_notify_usage (LOG : logger) (volume_ref : obj_ref)
    (extra_info : extra_info) (admin_context : context) : M unit :=
  try_except
    (LOG_debug LOG
       ("Send exists notification for <volume_id: "
        ++ "%(volume_id)s> <project_id %(project_id)s> "
        ++ "<%(extra_info)s>")
       [("volume_id", AStr (id volume_ref));
        ("project_id", AStr (project_id volume_ref));
        ("extra_info", AInfo extra_info)] ;;
     notify_about_volume_usage admin_context volume_ref "exists" extra_info)
    (fun exc_msg =>
       LOG_error LOG "Exists volume notification failed: %s"
         [("", AExn exc_msg)] (Some volume_ref)).

Definition _snap_notify_usage (LOG : logger) (snapshot_ref : obj_ref)
    (extra_info : extra_info) (admin_context : context) : M unit :=
  try_except
    (LOG_debug LOG
       ("Send notification for <snapshot_id: %(snapshot_id)s> "
        ++ "<project_id %(project_id)s> <%(extra_info)s>")
       [("snapshot_id", AStr (id snapshot_ref));
        ("project_id", AStr (project_id snapshot_ref));
        ("extra_info", AInfo extra_info)] ;;
     notify_about_snapshot_usage admin_context snapshot_ref "exists"
       extra_info)
    (fun exc_msg =>
       LOG_error LOG "Exists snapshot notification failed: %s"
         [("", AExn exc_msg)] (Some snapshot_ref)).

Definition _backup_notify_usage (LOG : logger) (backup_ref : obj_ref)
    (extra_info : extra_info) (admin_context : context) : M unit :=
  try_except
    (notify_about_backup_usage admin_context backup_ref "exists" extra_info ;;
     LOG_debug LOG
       ("Sent notification for <backup_id: %(backup_id)s> "
        ++ "<project_id %(project_id)s> <%(extra_info)s>")
       [("backup_id", AStr (id backup_ref));
        ("project_id", AStr (project_id backup_ref));
        ("extra_info", AInfo extra_info)])
    (fun exc_msg =>
       LOG_error LOG "Exists backups notification failed: %s"
         [("", AExn exc_msg)] None).

Definition _create_action (obj_ref : obj_ref) (admin_context : context)
    (LOG : logger)
    (notify_about_usage : context -> Audit.obj_ref -> string -> extra_info
                          -> M unit)
    (type_id_str type_name : string) : M unit :=
  try_except
    (let local_extra_info :=
       {| audit_period_beginning := str (created_at obj_ref);
          audit_period_ending := str (created_at obj_ref) |} in
     LOG_debug LOG
       ("Send create notification for <%(type_id_str)s: %(_id)s> "
        ++ "<project_id %(project_id)s> <%(extra_info)s>")
       [("type_id_str", AStr type_id_str);
        ("_id", AStr (id obj_ref));
        ("project_id", AStr (project_id obj_ref));
        ("extra_info", AInfo local_extra_info)] ;;
     notify_about_usage admin_context obj_ref "create.start"
       local_extra_info ;;
     notify_about_usage admin_context obj_ref "create.end"
       local_extra_info)
    (fun exc_msg =>
       LOG_error LOG "Create %(type)s notification failed: %(exc_msg)s"
         [("type", AStr type_name); ("exc_msg", AExn exc_msg)]
         (Some obj_ref)).

(** [str(obj_ref.deleted_at)]: [str(None)] is ["None"]. *)
Definition str_opt (t : option aware) : string :=
  match t with Some d => str d | None => "None" end.

Definition _delete_action (obj_ref : obj_ref) (admin_context : context)
    (LOG : logger)
    (notify_about_usage : context -> Audit.obj_ref -> string -> extra_info
                          -> M unit)
    (type_id_str type_name : string) : M unit :=
  try_except
    (let local_extra_info :=
       {| audit_period_beginning := str_opt (deleted_at obj_ref);
          audit_period_ending := str_opt (deleted_at obj_ref) |} in
     LOG_debug LOG
       ("Send delete notification for <%(type_id_str)s: %(_id)s> "
        ++ "<project_id %(project_id)s> <%(extra_info)s>")
       [("type_id_str", AStr type_id_str);
        ("_id", AStr (id obj_ref));
        ("project_id", AStr (project_id obj_ref));
        ("extra_info", AInfo local_extra_info)] ;;
     notify_about_usage admin_context obj_ref "delete.start"
       local_extra_info ;;
     notify_about_usage admin_context obj_ref "delete.end"
       local_extra_info)
    (fun exc_msg =>
       LOG_error LOG "Delete %(type)s notification failed: %(exc_msg)s"
         [("type", AStr type_name); ("exc_msg", AExn exc_msg)]
         (Some obj_ref)).

(** [begin < t < end], that is [begin < t and t < end]. *)
Definition strictly_between (begin t end_ : aware) : bool :=
  ltb begin t && ltb t end_.

(** [obj_ref.deleted_at and begin < obj_ref.deleted_at < end]: a datetime
    is always true, [None] is false. *)
Definition deleted_between (begin : aware) (t : option aware) (end_ : aware)
  : bool :=
  match t with
  | Some d => strictly_between begin d end_
  | None => false
  end.

Definition _obj_ref_action
    (_notify_usage : logger -> obj_ref -> extra_info -> context -> M unit)
    (LOG : logger) (obj_ref : obj_ref) (extra_info : extra_info)
    (admin_context : context) (begin end_ : aware)
    (notify_about_usage : context -> Audit.obj_ref -> string
                          -> Audit.extra_info -> M unit)
    (type_id_str type_name : string) : M unit :=
  _notify_usage LOG obj_ref extra_info admin_context ;;
  if send_actions CONF then
    (if strictly_between begin (created_at obj_ref) end_ then
       _create_action obj_ref admin_context LOG notify_about_usage
         type_id_str type_name
     else ret tt) ;;
    (if deleted_between begin (deleted_at obj_ref) end_ then
       _delete_action obj_ref admin_context LOG notify_about_usage
         type_id_str type_name
     else ret tt)
  else ret tt.

(** [main], from the point where the command line has been parsed into
    [CONF]; the set-up calls before it ([objects.register_all], the option
    parser, [logging.setup], [rpc.init]) make no list query and send no
    notification and are left out. *)
Definition main : M unit :=
  let admin_context := get_admin_context in
  let LOG := getLogger "cinder" in
  be <- last_completed_audit_period ;;
  be <- _time_error LOG (fst be) (snd be) ;;
  let begin := fst be in
  let end_ := snd be in
  LOG_info LOG "Starting volume usage audit" [] ;;
  LOG_info LOG "Creating usages for %(begin_period)s until %(end_period)s"
    [("begin_period", ATime begin); ("end_period", ATime end_)] ;;
  let extra_info :=
    {| audit_period_beginning := str begin;
       audit_period_ending := str end_ |} in
  volumes <- get_all_active_by_window Volume admin_context begin end_ ;;
  LOG_info LOG "Found %d volumes" [("", ALen (List.length volumes))] ;;
  for_each volumes (fun volume_ref =>
    _obj_ref_action _vol_notify_usage LOG volume_ref extra_info
      admin_context begin end_ notify_about_volume_usage
      "volume_id" "volume") ;;
  snapshots <- get_all_active_by_window Snapshot admin_context begin end_ ;;
  LOG_info LOG "Found %d snapshots" [("", ALen (List.length snapshots))] ;;
  for_each snapshots (fun snapshot_ref =>
    _obj_ref_action _snap_notify_usage LOG snapshot_ref extra_info
      admin_context begin end_ notify_about_snapshot_usage
      "snapshot_id" "snapshot") ;;
  backups <- get_all_active_by_window Backup admin_context begin end_ ;;
  LOG_info LOG "Found %d backups" [("", ALen (List.length backups))] ;;
  for_each backups (fun backup_ref =>
    _obj_ref_action _backup_notify_usage LOG backup_ref extra_info
      admin_context begin end_ notify_about_backup_usage
      "backup_id" "backup") ;;
  LOG_info LOG "Volume usage audit completed" [].

(** *** The three blocks of [main] as one routine

    [main] repeats one block for volumes, snapshots and backups, each with
    its own helper, notifier and strings.  [audit_kind] is that block with
    the kind as a parameter and [main_by_kind] is [main] written with it;
    they are used to reason about [main] block by block. *)

Definition exists_helper (k : kind)
  : logger -> obj_ref -> extra_info -> context -> M unit :=
  match k with
  | Volume => _vol_notify_usage
  | Snapshot => _snap_notify_usage
  | Backup => _backup_notify_usage
  end.

Definition type_id_str_of (k : kind) : string :=
  match k with
  | Volume => "volume_id" | Snapshot => "snapshot_id" | Backup => "backup_id"
  end.

Definition type_name_of (k : kind) : string :=
  match k with
  | Volume => "volume" | Snapshot => "snapshot" | Backup => "backup"
  end.

Definition found_fmt (k : kind) : string :=
  match k with
  | Volume => "Found %d volumes"
  | Snapshot => "Found %d snapshots"
  | Backup => "Found %d backups"
  end.

Definition obj_ref_action_of (k : kind) (LOG : logger) (r : obj_ref)
    (extra_info : extra_info) (admin_context : context) (begin end_ : aware)
  : M unit :=
  _obj_ref_action (exists_helper k) LOG r extra_info admin_context
    begin end_ (notify_about_usage_of k) (type_id_str_of k) (type_name_of k).

Definition audit_kind (k : kind) (LOG : logger) (extra_info : extra_info)
    (admin_context : context) (begin end_ : aware) : M unit :=
  l <- get_all_active_by_window k admin_context begin end_ ;;
  LOG_info LOG (found_fmt k) [("", ALen (List.length l))] ;;
  for_each l (fun r =>
    obj_ref_action_of k LOG r extra_info admin_context begin end_).

Definition main_by_kind : M unit :=
  let admin_context := get_admin_context in
  let LOG := getLogger "cinder" in
  be <- last_completed_audit_period ;;
  be <- _time_error LOG (fst be) (snd be) ;;
  let begin := fst be in
  let end_ := snd be in
  LOG_info LOG "Starting volume usage audit" [] ;;
  LOG_info LOG "Creating usages for %(begin_period)s until %(end_period)s"
    [("begin_period", ATime begin); ("end_period", ATime end_)] ;;
  let extra_info :=
    {| audit_period_beginning := str begin;
       audit_period_ending := str end_ |} in
  audit_kind Volume LOG extra_info admin_context begin end_ ;;
  audit_kind Snapshot LOG extra_info admin_context begin end_ ;;
  audit_kind Backup LOG extra_info admin_context begin end_ ;;
  LOG_info LOG "Volume usage audit completed" [].

End Script.

(** *** Reading a trace *)

Definition outcome {World A} (x : (failure + A) * World * list event)
  : failure + A := fst (fst x).
Definition trace {World A} (x : (failure + A) * World * list event)
  : list event := snd x.

Definition is_fetch (ev : event) : bool :=
  match ev with EvFetch _ _ _ _ _ => true | _ => false end.
Definition is_notify (ev : event) : bool :=
  match ev with EvNotify _ _ _ _ _ _ => true | _ => false end.

(** Is [ev] a notification whose event suffix is one of [l]? *)
Definition has_suffix (l : list string) (ev : event) : bool :=
  match ev with
  | EvNotify _ _ _ s _ _ => existsb (String.eqb s) l
  | _ => false
  end.
Definition is_exists := has_suffix ["exists"].
Definition is_create := has_suffix ["create.start"; "create.end"].
Definition is_delete := has_suffix ["delete.start"; "delete.end"].

(** The value a bound takes in [_time_error]: the parsed option when it is
    supplied (not [None], not empty), the default otherwise; [None] when
    the option does not parse. *)
Definition resolved (opt : option string) (default : datetime)
  : option datetime :=
  match opt with
  | Some s => if String.eqb s "" then Some default else Strptime.strptime s
  | None => Some default
  end.

Definition utc (d : datetime) : aware := replace_tzinfo d UTC.

(** The [extra_info] of the "exists" notifications of a window, and the
    [local_extra_info] of an action pair. *)
Definition window_info (b e : aware) : extra_info :=
  {| audit_period_beginning := str b; audit_period_ending := str e |}.
Definition moment_info (t : aware) : extra_info :=
  {| audit_period_beginning := str t; audit_period_ending := str t |}.

(** The notifier calls of a trace, in order, without their results. *)
Definition notify_calls (t : list event)
  : list (kind * obj_ref * string * extra_info) :=
  flat_map (fun ev => match ev with
                      | EvNotify k _ r s x _ => [(k, r, s, x)]
                      | _ => []
                      end) t.

(** One "exists" call, carrying the window of the query, for each record
    that the list queries of a trace returned, in order. *)
Definition exists_calls_due (t : list event)
  : list (kind * obj_ref * string * extra_info) :=
  flat_map (fun ev => match ev with
                      | EvFetch k _ b e (inr l) =>
                          map (fun r => (k, r, "exists", window_info b e)) l
                      | _ => []
                      end) t.

(** The error entry that the handler of an action pair logs. *)
Definition action_error (what : string) (k : kind) (r : obj_ref) (ex : exn)
  : event :=
  EvLog ERROR what [("type", AStr (type_name_of k)); ("exc_msg", AExn ex)]
    (Some r).
Definition create_failed :=
  action_error "Create %(type)s notification failed: %(exc_msg)s".
Definition delete_failed :=
  action_error "Delete %(type)s notification failed: %(exc_msg)s".

(** What an action pair leaves in a trace [t], its notifier calls being
    [n]: either the start notification succeeded and the end notification
    followed (a failure of the end notification is logged), or the start
    notification failed, was logged, and nothing followed. *)
Definition pair_trace (k : kind) (ctx : context) (r : obj_ref)
    (start_suffix end_suffix : string) (x : extra_info)
    (failed : exn -> event) (n t : list event) : Prop :=
  (exists res,
     n = [EvNotify k ctx r start_suffix x None;
          EvNotify k ctx r end_suffix x res]
     /\ forall ex, res = Some ex -> In (failed ex) t)
  \/ (exists ex,
        n = [EvNotify k ctx r start_suffix x (Some ex)]
        /\ In (failed ex) t).

(** Every failed notifier call of the trace is followed at once by an
    error entry of the log that carries the exception. *)
Fixpoint failures_logged (t : list event) : Prop :=
  match t with
  | [] => True
  | EvNotify _ _ _ _ _ (Some ex) :: rest =>
      (exists fmt args rsrc rest',
         rest = EvLog ERROR fmt args rsrc :: rest'
         /\ In (AExn ex) (map snd args))
      /\ failures_logged rest
  | _ :: rest => failures_logged rest
  end.

(** The notifications that are due to a record [r] of kind [k] fetched for
    the window from [b] to [e] have been attempted in [t]: its "exists"
    notification with the window as extra info and, with [send_actions],
    "create.start" when b < created_at < e and "delete.start" when
    deleted_at is set and b < deleted_at < e. *)
Definition served (CONF : conf) (k : kind) (ctx : context) (b e : aware)
    (r : obj_ref) (t : list event) : Prop :=
  (exists res, In (EvNotify k ctx r "exists" (window_info b e) res) t)
  /\ (send_actions CONF = true ->
      ltb b (created_at r) = true -> ltb (created_at r) e = true ->
      exists res,
        In (EvNotify k ctx r "create.start" (moment_info (created_at r)) res)
           t)
  /\ (send_actions CONF = true ->
      forall d, deleted_at r = Some d ->
      ltb b d = true -> ltb d e = true ->
      exists res,
        In (EvNotify k ctx r "delete.start" (moment_info d) res) t).

(** A stretch of a run with outcome [o] and trace [t] is in order: every
    record that a list query returned is served, every failed notification
    is logged, without [send_actions] the notifier calls are the "exists"
    calls due and no other, and an early end is the failure of the list
    query that is last in the trace. *)
Definition stretch_ok (CONF : conf) (o : failure + unit) (t : list event)
  : Prop :=
  (forall k ctx b e l r,
     In (EvFetch k ctx b e (inr l)) t -> In r l -> served CONF k ctx b e r t)
  /\ failures_logged t
  /\ (send_actions CONF = false -> notify_calls t = exists_calls_due t)
  /\ (forall f, o = inl f ->
      exists ex t0 k ctx b e,
        f = Raise ex /\ t = (t0 ++ [EvFetch k ctx b e (inl ex)])%list).

(** [a] occurs in [t] and [b] occurs later in [t]. *)
Definition before (a b : event) (t : list event) : Prop :=
  exists t1 t2 t3, t = (t1 ++ a :: t2 ++ b :: t3)%list.

End Audit.

(* ================================================================== *)
(** ** Concrete runs *)

Module Example.
Import Datetime Audit.

Definition at_ (h m : N) : datetime := mkDatetime 2024 3 1 h m 0 0.

Definition vol1 : obj_ref :=
  mkObj "vol-1" "project-a" (utc (at_ 0 30)) None.
Definition vol2 : obj_ref :=
  mkObj "vol-2" "project-a" (utc (at_ 0 10)) (Some (utc (at_ 0 40))).
Definition snap1 : obj_ref :=
  mkObj "snap-1" "project-b" (utc (at_ 0 20)) (Some (utc (at_ 0 50))).

(** Created exactly at the start and deleted exactly at the end of the
    window from 00:00 to 01:00. *)
Definition vol_on_bounds : obj_ref :=
  mkObj "vol-3" "project-a" (utc (at_ 0 0)) (Some (utc (at_ 1 0))).

(** The previous hour, for a run shortly after 02:00. *)
Definition clock (_ : unit) : datetime * datetime := (at_ 1 0, at_ 2 0).

Definition db (k : kind) (_ : context) (_ _ : aware) (w : unit)
  : (exn + list obj_ref) * unit :=
  (inr match k with
       | Volume => [vol1; vol2]
       | Snapshot => [snap1]
       | Backup => []
       end, w).

Definition db_one_volume (k : kind) (_ : context) (_ _ : aware) (w : unit)
  : (exn + list obj_ref) * unit :=
  (inr match k with Volume => [vol1] | _ => [] end, w).

Definition boom : exn := mkExn "MessagingTimeout" "no reply".

Definition bus_ok (_ : kind) (_ : context) (_ : obj_ref) (_ : string)
    (_ : extra_info) (w : unit) : option exn * unit := (None, w).

(** A notifier that fails on every call with event suffix [s]. *)
Definition bus_failing (s : string) (_ : kind) (_ : context) (_ : obj_ref)
    (suffix : string) (_ : extra_info) (w : unit) : option exn * unit :=
  (if String.eqb suffix s then Some boom else None, w).

(** A notifier that fails on every call. *)
Definition bus_down (_ : kind) (_ : context) (_ : obj_ref) (_ : string)
    (_ : extra_info) (w : unit) : option exn * unit := (Some boom, w).

Definition hour_window (actions : bool) : conf :=
  mkConf (Some "2024-03-01 00:00:00") (Some "2024-03-01 01:00:00") actions.

Definition reversed_window : conf :=
  mkConf (Some "2024-03-01 01:00:00") (Some "2024-03-01 00:00:00") false.

Definition begin0 : aware := utc (at_ 0 0).
Definition end1 : aware := utc (at_ 1 0).

(** [_obj_ref_action] on a volume, for the window from 00:00 to 01:00 with
    [send_actions] on, over the notifier [bus]. *)
Definition volume_action bus (r : obj_ref) :=
  obj_ref_action_of unit bus (hour_window true) Volume (Logger "cinder") r
    (window_info begin0 end1) AdminContext begin0 end1 tt.

End Example.

(* ================================================================== *)
(** ** Further readings of a trace *)

Module Observe.
Import Datetime Audit.

Definition is_info (ev : event) : bool :=
  match ev with EvLog INFO _ _ _ => true | _ => false end.
Definition is_debug (ev : event) : bool :=
  match ev with EvLog DEBUG _ _ _ => true | _ => false end.
Definition is_error (ev : event) : bool :=
  match ev with EvLog ERROR _ _ _ => true | _ => false end.

(** A notifier call that raised. *)
Definition is_failed (ev : event) : bool :=
  match ev with EvNotify _ _ _ _ _ (Some _) => true | _ => false end.

(** The list queries and the INFO entries of a trace: the course of the
    run, without what is done for the single records. *)
Definition skeleton (t : list event) : list event :=
  filter (fun ev => is_fetch ev || is_info ev) t.

(** The "exists" calls among the notifier calls of a trace. *)
Definition exists_calls (t : list event)
  : list (kind * obj_ref * string * extra_info) :=
  filter (fun c => String.eqb (snd (fst c)) "exists") (notify_calls t).

(** The five event suffixes the script uses. *)
Definition suffixes : list string :=
  ["exists"; "create.start"; "create.end"; "delete.start"; "delete.end"].

(** The error entries of the log are as many as the failed calls. *)
Definition balanced (t : list event) : Prop :=
  List.length (filter is_error t) = List.length (filter is_failed t).

(** The extra info that goes with an event suffix, for a record [r]
    fetched for the window from [b] to [e]. *)
Definition notification_ok (b e : aware) (r : obj_ref) (s : string)
    (x : extra_info) : Prop :=
  (s = "exists" /\ x = window_info b e)
  \/ ((s = "create.start" \/ s = "create.end")
      /\ x = moment_info (created_at r))
  \/ ((s = "delete.start" \/ s = "delete.end")
      /\ exists d, deleted_at r = Some d /\ x = moment_info d).

(** What the loop over the records [l] of kind [k] may leave in a trace:
    DEBUG and ERROR entries, and notifier calls about records of [l]. *)
Definition record_event (k : kind) (ctx : context) (b e : aware)
    (l : list obj_ref) (ev : event) : Prop :=
  match ev with
  | EvLog lvl _ _ _ => lvl <> INFO
  | EvFetch _ _ _ _ _ => False
  | EvNotify k' ctx' r s x _ =>
      k' = k /\ ctx' = ctx /\ In r l /\ notification_ok b e r s x
  end.

(** Every notifier call of the trace is made with the admin context,
    about a record that an earlier list query of the same kind returned,
    with the extra info that goes with its suffix. *)
Definition accounted (t : list event) : Prop :=
  forall k ctx r s x res,
    In (EvNotify k ctx r s x res) t ->
    ctx = AdminContext
    /\ exists b e l,
         before (EvFetch k AdminContext b e (inr l))
           (EvNotify k ctx r s x res) t
         /\ In r l /\ notification_ok b e r s x.

(** The pieces of the trace of a run over the window from [b] to [e]:
    the two opening entries, the block of a kind whose list query returned
    [l] and whose loop left [tl], a list query that raised, and the closing
    entry. *)
Definition opening (b e : aware) : list event :=
  [EvLog INFO "Starting volume usage audit" [] None;
   EvLog INFO "Creating usages for %(begin_period)s until %(end_period)s"
     [("begin_period", ATime b); ("end_period", ATime e)] None].

Definition counted (k : kind) (l : list obj_ref) : event :=
  EvLog INFO (found_fmt k) [("", ALen (List.length l))] None.

Definition block (k : kind) (b e : aware) (l : list obj_ref)
    (tl : list event) : list event :=
  EvFetch k AdminContext b e (inr l) :: counted k l :: tl.

Definition failed_query (k : kind) (b e : aware) (ex : exn) : event :=
  EvFetch k AdminContext b e (inl ex).

Definition closing : event :=
  EvLog INFO "Volume usage audit completed" [] None.

(** [tl] is the trace of the loop over the records [l] of kind [k]. *)
Definition loop_trace (k : kind) (b e : aware) (l : list obj_ref)
    (tl : list event) : Prop :=
  Forall (record_event k AdminContext b e l) tl
  /\ exists_calls tl = map (fun r => (k, r, "exists", window_info b e)) l.

(** A datetime with the fraction of the second dropped. *)
Definition whole_second (t : datetime) : datetime :=
  mkDatetime (year t) (month t) (day t) (hour t) (minute t) (second t) 0.

(** A two-digit field in the range of its directive is matched whole by
    the first alternative that matches, whatever follows it. *)
Definition matched_whole (re : Strptime.matcher) (v : N) : Prop :=
  forall rest,
    hd_error (re (digit (v / 10) :: digit v :: rest))
    = Some ([digit (v / 10); digit v], rest)
    /\ Strptime.int [digit (v / 10); digit v] = v.

(** The fields of [t] are in the ranges of their directives. *)
Definition in_ranges (t : datetime) : Prop :=
  (year t < 10000 /\ 1 <= month t <= 12 /\ 1 <= day t <= 31
   /\ hour t < 24 /\ minute t < 60 /\ second t < 60)%N.

(** A database whose snapshot query raises. *)
Definition db_snapshots_down (k : kind) (c : context) (b e : aware) (w : unit)
  : (exn + list obj_ref) * unit :=
  match k with
  | Snapshot => (inl (mkExn "DBConnectionError" "connection lost"), w)
  | _ => Example.db k c b e w
  end.

(** The characters of a string. *)
Definition chars (s : string) : list ascii := list_ascii_of_string s.

End Observe.

(* ================================================================== *)
(** ** Facts about datetimes *)

Module DatetimeFacts.
Import Datetime.

Lemma lex_opp c k : CompOpp (lex c k) = lex (CompOpp c) (CompOpp k).
Proof. destruct c; reflexivity. Qed.

Lemma compare_naive_antisym a b :
  compare_naive b a = CompOpp (compare_naive a b).
Proof.
  unfold compare_naive.
  rewrite !lex_opp, <- !N.compare_antisym. reflexivity.
Qed.

Lemma compare_naive_refl a : compare_naive a a = Eq.
Proof. unfold compare_naive. rewrite !N.compare_refl. reflexivity. Qed.

(** [e <= b] is the negation of [b < e]. *)
Lemma leb_ltb a b : leb a b = negb (ltb b a).
Proof.
  unfold leb, ltb, compare.
  rewrite (compare_naive_antisym (naive a) (naive b)).
  destruct (compare_naive (naive a) (naive b)); reflexivity.
Qed.

Lemma leb_ltb_utc a b :
  leb (Audit.utc a) (Audit.utc b) = negb (ltb (Audit.utc b) (Audit.utc a)).
Proof. apply leb_ltb. Qed.

(** [<] is strict. *)
Lemma ltb_irrefl a : ltb a a = false.
Proof. unfold ltb, compare. rewrite compare_naive_refl. reflexivity. Qed.

End DatetimeFacts.

Example str_march_first :
  Datetime.str (Audit.utc (Datetime.mkDatetime 2024 3 1 0 0 0 0))
  = "2024-03-01 00:00:00+00:00".
Proof. reflexivity. Qed.

Example str_microseconds :
  Datetime.str (Audit.utc (Datetime.mkDatetime 2024 3 1 0 30 5 1200))
  = "2024-03-01 00:30:05.001200+00:00".
Proof. reflexivity. Qed.

Example strptime_ok :
  Strptime.strptime "2024-03-01 00:30:00"
  = Some (Datetime.mkDatetime 2024 3 1 0 30 0 0).
Proof. vm_compute. reflexivity. Qed.

Example strptime_short_fields :
  Strptime.strptime "2024-3-1   7:5:9"
  = Some (Datetime.mkDatetime 2024 3 1 7 5 9 0).
Proof. vm_compute. reflexivity. Qed.

Example strptime_rejects :
  map Strptime.strptime
    ["2024-02-30 00:00:00"; "2024-02-29 00:00:60"; "2024-03-01 00:00:599";
     "2024-13-01 00:00:00"; "0000-12-01 00:00:00"; "2024-03-01 24:00:00";
     "2024-03-01T00:00:00"; "2024-03-01 00:00:00 "; ""]
  = repeat None 9.
Proof. vm_compute. reflexivity. Qed.

(* ================================================================== *)
(** ** Properties of the audit script *)

Module AuditSpec.
Import Datetime DatetimeFacts Audit.
Local Open Scope list_scope.

(** Membership in a list that is known element by element. *)
Ltac in_list := cbn; repeat (first [left; reflexivity | right]).
Ltac in_trace := vm_compute; repeat (first [left; reflexivity | right]).

Section Properties.
Set Default Proof Using "Type".

Variable World : Type.
Variable clock : World -> datetime * datetime.
Variable db :
  kind -> context -> aware -> aware -> World -> (exn + list obj_ref) * World.
Variable bus :
  kind -> context -> obj_ref -> string -> extra_info ->
  World -> option exn * World.
Variable CONF : conf.

Abbreviation time_error := (_time_error World CONF).
Abbreviation run_main := (main World clock db bus CONF).
Abbreviation run_main_by_kind := (main_by_kind World clock db bus CONF).
Abbreviation action_of := (obj_ref_action_of World bus CONF).
Abbreviation run_kind := (audit_kind World db bus CONF).
Abbreviation notify_of := (notify_about_usage_of World bus).
Abbreviation each := (for_each World).

(** *** The computations *)

Lemma bind_assoc {A B C} (m : M World A) (f : A -> M World B)
    (g : B -> M World C) w :
  bind World (bind World m f) g w
  = bind World m (fun x => bind World (f x) g) w.
Proof.
  unfold bind. destruct (m w) as [[[x|a] w1] t1]; [reflexivity|].
  destruct (f a w1) as [[[x|b] w2] t2]; [reflexivity|].
  destruct (g b w2) as [[r w3] t3]. now rewrite app_assoc.
Qed.

Lemma bind_ext {A B} (m : M World A) (f g : A -> M World B) w :
  (forall a w', f a w' = g a w') -> bind World m f w = bind World m g w.
Proof.
  intros H. unfold bind. destruct (m w) as [[[x|a] w1] t1]; [reflexivity|].
  now rewrite H.
Qed.

(** [main] is the sequence of its three blocks. *)
Lemma main_eq w : run_main w = run_main_by_kind w.
Proof.
  unfold main, main_by_kind. cbv zeta.
  apply bind_ext; intros be w1. apply bind_ext; intros be' w2.
  apply bind_ext; intros _ w3. apply bind_ext; intros _ w4.
  unfold audit_kind, obj_ref_action_of. cbn [exists_helper type_id_str_of
    type_name_of found_fmt].
  do 3 (rewrite bind_assoc; apply bind_ext; intros ? ?;
        rewrite bind_assoc; apply bind_ext; intros ? ?;
        apply bind_ext; intros ? ?).
  reflexivity.
Qed.

(** *** The window *)

(** What [_time_error] does once both bounds are resolved. *)
Lemma time_error_resolved LOG b0 e0 b e w :
  resolved (start_time CONF) b0 = Some b ->
  resolved (end_time CONF) e0 = Some e ->
  time_error LOG b0 e0 w
  = if leb (utc e) (utc b)
    then (inl (SystemExit (-1)), w,
          [EvLog ERROR (time_error_msg (utc b) (utc e)) [] None])
    else (inr (utc b, utc e), w, []).
Proof.
  intros Hb He.
  assert (Ho : forall o d x, resolved o d = Some x ->
                override World o d w = (inr x, w, [])).
  { intros o d x. unfold resolved, override, datetime_strptime.
    destruct o as [s|]; [destruct (String.eqb s "")|].
    - now intros [= ->].
    - now intros ->.
    - now intros [= ->]. }
  unfold _time_error, bind. rewrite (Ho _ _ _ Hb), (Ho _ _ _ He).
  fold (utc b) (utc e).
  destruct (leb (utc e) (utc b)); reflexivity.
Qed.

Lemma resolved_supplied s d :
  s <> "" -> resolved (Some s) d = Strptime.strptime s.
Proof.
  intros H. unfold resolved.
  destruct (String.eqb_spec s ""); [contradiction | reflexivity].
Qed.

Lemma resolved_absent o d :
  o = None \/ o = Some "" -> resolved o d = Some d.
Proof. now intros [-> | ->]. Qed.

(** A run whose window resolution fails stops there. *)
Lemma main_stops f w w1 t1 :
  time_error (Logger "cinder") (fst (clock w)) (snd (clock w)) w
  = (inl f, w1, t1) ->
  run_main w = (inl f, w1, t1).
Proof.
  intros H. unfold main, bind, last_completed_audit_period, getLogger.
  cbn [fst snd]. now rewrite H.
Qed.

Lemma resolved_parsed s d x :
  Strptime.strptime s = Some x -> resolved (Some s) d = Some x.
Proof.
  intros H. rewrite resolved_supplied; [exact H|].
  intros ->. vm_compute in H. discriminate.
Qed.

(** The trace of [m ;; k] starts with the trace of [m]. *)
Lemma bind_prefix {A B} (m : M World A) (k : A -> M World B) w :
  exists r w' t2, bind World m k w = (r, w', trace (m w) ++ t2).
Proof.
  unfold bind, trace. destruct (m w) as [[[f|a] w1] t1]; cbn [snd].
  - exists (inl f), w1, []. now rewrite app_nil_r.
  - destruct (k a w1) as [[r w2] t2]. now exists r, w2, t2.
Qed.

Lemma bind_emit {B} ev (k : unit -> M World B) w :
  bind World (emit World ev) k w
  = (outcome (k tt w), snd (fst (k tt w)), ev :: trace (k tt w)).
Proof.
  unfold bind, emit, outcome, trace.
  now destruct (k tt w) as [[r w2] t2].
Qed.

(** A block starts with its list query, over the window it is given. *)
Lemma audit_kind_head k LOG extra ctx b e w :
  exists res rest, trace (run_kind k LOG extra ctx b e w)
                   = EvFetch k ctx b e res :: rest.
Proof.
  unfold audit_kind.
  destruct (bind_prefix (get_all_active_by_window World db k ctx b e)
              (fun l => bind World
                 (LOG_info World LOG (found_fmt k) [("", ALen (List.length l))])
                 (fun _ => each l (fun r => action_of k LOG r extra ctx b e)))
              w) as (r & w' & t2 & ->).
  unfold get_all_active_by_window, trace.
  destruct (db k ctx b e w) as [[ex|l] w1]; cbn; eauto.
Qed.

(** *** One record *)

Lemma filter_suffix_notify l t :
  filter (has_suffix l) t = filter (has_suffix l) (filter is_notify t).
Proof.
  induction t as [|ev t IH]; [reflexivity|].
  destruct ev; cbn; try exact IH.
  destruct (existsb _ l); now rewrite IH.
Qed.

Lemma existsb_filter {A} (f : A -> bool) t :
  existsb f t = negb (match filter f t with [] => true | _ => false end).
Proof.
  induction t as [|a t IH]; [reflexivity|].
  cbn. destruct (f a); [reflexivity | exact IH].
Qed.


(** The "exists" helper of every kind calls the notifier once, logs a
    failure and returns. *)
Lemma exists_helper_run k LOG r extra ctx w :
  exists t,
    exists_helper World bus k LOG r extra ctx w
    = (inr tt, snd (bus k ctx r "exists"%string extra w), t)
    /\ filter is_notify t
       = [EvNotify k ctx r "exists" extra
            (fst (bus k ctx r "exists"%string extra w))]
    /\ filter is_fetch t = []
    /\ (forall ex, fst (bus k ctx r "exists"%string extra w) = Some ex ->
        exists fmt rsrc, In (EvLog ERROR fmt [(""%string, AExn ex)] rsrc) t).
Proof.
  destruct k; cbn [exists_helper];
    unfold _vol_notify_usage, _snap_notify_usage, _backup_notify_usage,
      try_except, bind, LOG_debug, LOG_error, emit,
      notify_about_volume_usage, notify_about_snapshot_usage,
      notify_about_backup_usage, notify_about_usage_of;
    destruct (bus _ ctx r "exists"%string extra w) as [[ex|] w1];
    cbn; eexists; (split; [reflexivity|]);
    (split; [reflexivity|]); (split; [reflexivity|]);
    intros ex' [=]; subst; do 2 eexists; cbn; eauto 6.
Qed.

(** [_create_action]: "create.start" is always sent; "create.end" is sent
    only when "create.start" did not fail; a failure of either is logged
    and the function returns. *)
Lemma create_action_run k LOG r ctx w :
  let x := moment_info (created_at r) in
  exists w' t,
    _create_action World r ctx LOG (notify_of k) (type_id_str_of k)
      (type_name_of k) w = (inr tt, w', t)
    /\ filter is_fetch t = []
    /\ ((exists res,
           filter is_notify t
           = [EvNotify k ctx r "create.start" x None;
              EvNotify k ctx r "create.end" x res]
           /\ forall ex, res = Some ex ->
                In (create_failed k r ex) t)
        \/ (exists ex,
              filter is_notify t
              = [EvNotify k ctx r "create.start" x (Some ex)]
              /\ In (create_failed k r ex) t)).
Proof.
  intros x. unfold _create_action, try_except, bind, LOG_debug, LOG_error,
    emit, notify_about_usage_of. fold (moment_info (created_at r)). fold x.
  destruct (bus k ctx r "create.start"%string x w) as [[ex|] w1]; cbn.
  - do 2 eexists. split; [reflexivity|]. split; [reflexivity|].
    right. exists ex. split; [reflexivity|]. in_list.
  - destruct (bus k ctx r "create.end"%string x w1) as [[ex|] w2]; cbn;
      do 2 eexists; (split; [reflexivity|]); (split; [reflexivity|]);
      left; eexists; (split; [reflexivity|]); intros ex' [=]; subst.
    in_list.
Qed.

(** [_delete_action], for a record whose [deleted_at] is [d]. *)
Lemma delete_action_run k LOG r ctx d w :
  deleted_at r = Some d ->
  let x := moment_info d in
  exists w' t,
    _delete_action World r ctx LOG (notify_of k) (type_id_str_of k)
      (type_name_of k) w = (inr tt, w', t)
    /\ filter is_fetch t = []
    /\ ((exists res,
           filter is_notify t
           = [EvNotify k ctx r "delete.start" x None;
              EvNotify k ctx r "delete.end" x res]
           /\ forall ex, res = Some ex ->
                In (delete_failed k r ex) t)
        \/ (exists ex,
              filter is_notify t
              = [EvNotify k ctx r "delete.start" x (Some ex)]
              /\ In (delete_failed k r ex) t)).
Proof.
  intros Hd x. unfold _delete_action, try_except, bind, LOG_debug, LOG_error,
    emit, notify_about_usage_of. rewrite Hd. cbn [str_opt].
  fold (moment_info d). fold x.
  destruct (bus k ctx r "delete.start"%string x w) as [[ex|] w1]; cbn.
  - do 2 eexists. split; [reflexivity|]. split; [reflexivity|].
    right. exists ex. split; [reflexivity|]. in_list.
  - destruct (bus k ctx r "delete.end"%string x w1) as [[ex|] w2]; cbn;
      do 2 eexists; (split; [reflexivity|]); (split; [reflexivity|]);
      left; eexists; (split; [reflexivity|]); intros ex' [=]; subst.
    in_list.
Qed.

(** The run of [_obj_ref_action] on one record: the "exists" helper, then
    the create pair if its gate is open, then the delete pair if its gate
    is open; it always returns. *)
Lemma action_run k LOG r extra ctx b e w :
  let gate_c := send_actions CONF && strictly_between b (created_at r) e in
  let gate_d := send_actions CONF && deleted_between b (deleted_at r) e in
  exists w' t0 tc td,
    action_of k LOG r extra ctx b e w = (inr tt, w', t0 ++ tc ++ td)
    /\ filter is_fetch (t0 ++ tc ++ td) = []
    /\ (filter is_notify t0
        = [EvNotify k ctx r "exists" extra
             (fst (bus k ctx r "exists"%string extra w))]
        /\ forall ex, fst (bus k ctx r "exists"%string extra w) = Some ex ->
           exists fmt rsrc,
             In (EvLog ERROR fmt [(""%string, AExn ex)] rsrc) t0)
    /\ (gate_c = false -> tc = [])
    /\ (gate_c = true ->
        pair_trace k ctx r "create.start" "create.end"
          (moment_info (created_at r)) (create_failed k r)
          (filter is_notify tc) tc)
    /\ (gate_d = false -> td = [])
    /\ (forall d, deleted_at r = Some d -> gate_d = true ->
        pair_trace k ctx r "delete.start" "delete.end"
          (moment_info d) (delete_failed k r) (filter is_notify td) td).
Proof.
  intros gate_c gate_d. subst gate_c gate_d. unfold pair_trace.
  unfold obj_ref_action_of, _obj_ref_action, bind.
  destruct (exists_helper_run k LOG r extra ctx w) as (t0 & -> & Hn & Hf & Hl).
  destruct (send_actions CONF); cbn [andb].
  - destruct (strictly_between b (created_at r) e).
    + destruct (create_action_run k LOG r ctx
                  (snd (bus k ctx r "exists"%string extra w)))
        as (w1 & tc & -> & Hfc & Hc).
      destruct (deleted_at r) as [d|] eqn:Hd; cbn [deleted_between].
      * destruct (strictly_between b d e).
        -- destruct (delete_action_run k LOG r ctx d w1 Hd)
             as (w2 & td & -> & Hfd & Hdel).
           exists w2, t0, tc, td. rewrite !filter_app, Hf, Hfc, Hfd.
           repeat split; try easy.
           intros d' [= <-] _. exact Hdel.
        -- exists w1, t0, tc, []. rewrite !filter_app, Hf, Hfc.
           repeat split; easy.
      * exists w1, t0, tc, []. rewrite !filter_app, Hf, Hfc.
        repeat split; easy.
    + destruct (deleted_at r) as [d|] eqn:Hd; cbn [deleted_between].
      * destruct (strictly_between b d e).
        -- destruct (delete_action_run k LOG r ctx d
                       (snd (bus k ctx r "exists"%string extra w)) Hd)
             as (w2 & td & Hrun & Hfd & Hdel).
           unfold ret. rewrite Hrun.
           exists w2, t0, [], td. rewrite !filter_app, Hf, Hfd.
           repeat split; try easy.
           intros d' [= <-] _. exact Hdel.
        -- eexists _, t0, [], []. rewrite !filter_app, Hf.
           repeat split; easy.
      * eexists _, t0, [], []. rewrite !filter_app, Hf.
        repeat split; easy.
  - eexists _, t0, [], []. rewrite !filter_app, Hf.
    repeat split; easy.
Qed.

Lemma pair_trace_incl k ctx r s1 s2 x failed n t t' :
  incl t t' ->
  pair_trace k ctx r s1 s2 x failed n t ->
  pair_trace k ctx r s1 s2 x failed n t'.
Proof.
  intros Hi [(res & -> & H) | (ex & -> & H)]; [left | right].
  - exists res. split; [reflexivity|]. intros ex Hex. apply Hi, H, Hex.
  - exists ex. split; [reflexivity|]. apply Hi, H.
Qed.

(** The notifier calls of [_obj_ref_action] on one record: the "exists"
    call, then the calls [nc] of the create pair, then the calls [nd] of
    the delete pair. *)
Lemma action_notifications k LOG r extra ctx b e w :
  let gate_c := send_actions CONF && strictly_between b (created_at r) e in
  let gate_d := send_actions CONF && deleted_between b (deleted_at r) e in
  let res0 := fst (bus k ctx r "exists"%string extra w) in
  let t := trace (action_of k LOG r extra ctx b e w) in
  exists nc nd,
    outcome (action_of k LOG r extra ctx b e w) = inr tt
    /\ filter is_fetch t = []
    /\ filter is_notify t = EvNotify k ctx r "exists" extra res0 :: nc ++ nd
    /\ (forall ex, res0 = Some ex ->
        exists fmt rsrc, In (EvLog ERROR fmt [(""%string, AExn ex)] rsrc) t)
    /\ (gate_c = false -> nc = [])
    /\ (gate_c = true ->
        pair_trace k ctx r "create.start" "create.end"
          (moment_info (created_at r)) (create_failed k r) nc t)
    /\ (gate_d = false -> nd = [])
    /\ (forall d, deleted_at r = Some d -> gate_d = true ->
        pair_trace k ctx r "delete.start" "delete.end"
          (moment_info d) (delete_failed k r) nd t).
Proof.
  intros gate_c gate_d res0 t. subst t.
  destruct (action_run k LOG r extra ctx b e w)
    as (w' & t0 & tc & td & -> & Hf & (Hn0 & Hl0) & Hc0 & Hc1 & Hd0 & Hd1).
  cbn [trace outcome fst snd].
  exists (filter is_notify tc), (filter is_notify td).
  split; [reflexivity|]. split; [exact Hf|].
  split; [now rewrite !filter_app, Hn0|].
  split; [intros ex Hex; destruct (Hl0 ex Hex) as (fmt & rsrc & Hin);
          exists fmt, rsrc; apply in_or_app; now left|].
  split; [intros H; now rewrite (Hc0 H)|].
  split; [intros H; apply (pair_trace_incl _ _ _ _ _ _ _ _ tc);
          [intros ev Hev; apply in_or_app; right; apply in_or_app; now left
          | exact (Hc1 H)]|].
  split; [intros H; now rewrite (Hd0 H)|].
  intros d Hd H. apply (pair_trace_incl _ _ _ _ _ _ _ _ td);
    [intros ev Hev; apply in_or_app; right; apply in_or_app; now right
    | exact (Hd1 d Hd H)].
Qed.

(** The create and the delete calls of one record, read off the trace. *)
Lemma action_filters k LOG r extra ctx b e w :
  let gate_c := send_actions CONF && strictly_between b (created_at r) e in
  let gate_d := send_actions CONF && deleted_between b (deleted_at r) e in
  let t := trace (action_of k LOG r extra ctx b e w) in
  (gate_c = false -> filter is_create t = [])
  /\ (gate_c = true ->
      pair_trace k ctx r "create.start" "create.end"
        (moment_info (created_at r)) (create_failed k r)
        (filter is_create t) t)
  /\ (gate_d = false -> filter is_delete t = [])
  /\ (forall d, deleted_at r = Some d -> gate_d = true ->
      pair_trace k ctx r "delete.start" "delete.end"
        (moment_info d) (delete_failed k r) (filter is_delete t) t).
Proof.
  intros gate_c gate_d t.
  destruct (action_notifications k LOG r extra ctx b e w)
    as (nc & nd & _ & _ & Hn & _ & Hc0 & Hc1 & Hd0 & Hd1).
  fold t in Hn, Hc1, Hd1. fold gate_c in Hc0, Hc1. fold gate_d in Hd0, Hd1.
  assert (Hnd : filter is_create nd = [] /\ filter is_delete nd = nd).
  { destruct gate_d eqn:Hg; [|now rewrite (Hd0 eq_refl)].
    subst gate_d. destruct (deleted_at r) as [d|] eqn:Hd;
      [|cbn in Hg; now rewrite andb_false_r in Hg].
    now destruct (Hd1 d eq_refl eq_refl) as [(res & -> & _) | (ex & -> & _)]. }
  assert (Hnc : filter is_delete nc = [] /\ filter is_create nc = nc).
  { destruct gate_c eqn:Hg; [|now rewrite (Hc0 eq_refl)].
    now destruct (Hc1 eq_refl) as [(res & -> & _) | (ex & -> & _)]. }
  destruct Hnd as [Hnd1 Hnd2], Hnc as [Hnc1 Hnc2].
  assert (Hfc : filter is_create t = nc).
  { unfold is_create. rewrite filter_suffix_notify, Hn. cbn.
    fold is_create. now rewrite filter_app, Hnd1, Hnc2, app_nil_r. }
  assert (Hfd : filter is_delete t = nd).
  { unfold is_delete. rewrite filter_suffix_notify, Hn. cbn.
    fold is_delete. now rewrite filter_app, Hnd2, Hnc1. }
  rewrite Hfc, Hfd. split; [|split; [|split]]; assumption.
Qed.




Lemma before_head a b t : In b t -> before a b (a :: t).
Proof.
  intros H. apply in_split in H as (l1 & l2 & ->). now exists [], l1, l2.
Qed.

Lemma gate_spec b t e :
  strictly_between b t e = true <-> ltb b t = true /\ ltb t e = true.
Proof. unfold strictly_between. apply andb_true_iff. Qed.

Lemma deleted_between_spec b o e :
  deleted_between b o e = true
  <-> exists d, o = Some d /\ ltb b d = true /\ ltb d e = true.
Proof.
  destruct o as [d|]; cbn; rewrite ?gate_spec; split.
  - intros H. now exists d.
  - now intros (d' & [= <-] & H).
  - discriminate.
  - now intros (d' & [=] & _).
Qed.

(** The loop over the records of one kind always runs to its end. *)
Lemma each_returns k LOG extra ctx b e l w :
  outcome (each l (fun r => action_of k LOG r extra ctx b e) w) = inr tt.
Proof.
  revert w. induction l as [|r l IH]; intros w; [reflexivity|].
  cbn [for_each]. unfold bind.
  destruct (action_run k LOG r extra ctx b e w) as (w' & t0 & tc & td & -> & _).
  specialize (IH w').
  destruct (each l _ w') as [[o w2] t2]. exact IH.
Qed.

(** C1: when both overrides are supplied and parse to bounds with
    end <= begin (compared after UTC is attached), the run logs one error,
    whose text carries both bounds, and exits with status -1; that log
    entry is the whole trace of the run, so no list query and no
    notification call is made, and the collaborators' state is untouched. *)
Theorem invalid_override_window_is_fatal (w : World) s t b e :
  start_time CONF = Some s -> end_time CONF = Some t ->
  Strptime.strptime s = Some b -> Strptime.strptime t = Some e ->
  leb (replace_tzinfo e UTC) (replace_tzinfo b UTC) = true ->
  run_main w
  = (inl (SystemExit (-1)), w,
     [EvLog ERROR
        ("The end time (" ++ str (replace_tzinfo e UTC)
         ++ ") must be after the start time ("
         ++ str (replace_tzinfo b UTC) ++ ").")%string [] None])
  /\ (-1 <> 0)%Z
  /\ forall ev, In ev (trace (run_main w)) ->
                is_fetch ev = false /\ is_notify ev = false.
Proof.
  intros Hs Ht Hb He Hle.
  assert (Hrun : run_main w
    = (inl (SystemExit (-1)), w,
       [EvLog ERROR (time_error_msg (utc b) (utc e)) [] None])).
  { apply main_stops.
    rewrite (time_error_resolved _ _ _ b e).
    - unfold utc. now rewrite Hle.
    - rewrite Hs. now apply resolved_parsed.
    - rewrite Ht. now apply resolved_parsed. }
  split; [exact Hrun|]. split; [discriminate|].
  rewrite Hrun. cbn [trace snd]. intros ev [<- | []]. now split.
Qed.

(** C6: when both overrides are supplied and parse to bounds with
    end > begin, [_time_error] returns exactly the parsed values with UTC
    attached, whatever the default period was, and logs nothing; the run
    reports that window and puts its first list query over it. *)
Theorem valid_override_window_is_used (w : World) LOG b0 e0 s t b e :
  start_time CONF = Some s -> end_time CONF = Some t ->
  Strptime.strptime s = Some b -> Strptime.strptime t = Some e ->
  ltb (replace_tzinfo b UTC) (replace_tzinfo e UTC) = true ->
  time_error LOG b0 e0 w = (inr (mkAware b UTC, mkAware e UTC), w, [])
  /\ exists r w' res rest,
       run_main w
       = (r, w',
          EvLog INFO "Starting volume usage audit" [] None
          :: EvLog INFO
               "Creating usages for %(begin_period)s until %(end_period)s"
               [("begin_period", ATime (mkAware b UTC));
                ("end_period", ATime (mkAware e UTC))] None
          :: EvFetch Volume AdminContext (mkAware b UTC) (mkAware e UTC) res
          :: rest).
Proof.
  intros Hs Ht Hb He Hlt.
  assert (Hte : forall LOG b0 e0,
            time_error LOG b0 e0 w = (inr (utc b, utc e), w, [])).
  { intros L x y. rewrite (time_error_resolved _ _ _ b e).
    - rewrite leb_ltb_utc. unfold utc. now rewrite Hlt.
    - rewrite Hs. now apply resolved_parsed.
    - rewrite Ht. now apply resolved_parsed. }
  split; [apply Hte|].
  rewrite main_eq. unfold main_by_kind, last_completed_audit_period.
  cbv zeta. unfold bind at 1. unfold bind at 1. rewrite Hte.
  cbn [fst snd app]. unfold LOG_info. rewrite !bind_emit.
  cbn [trace snd].
  match goal with |- context [bind World ?m ?k w] =>
    destruct (bind_prefix m k w) as (r & w' & t2 & ->);
    destruct (audit_kind_head Volume (getLogger "cinder")
                (window_info (utc b) (utc e)) get_admin_context
                (utc b) (utc e) w) as (res & rest & Hh)
  end.
  unfold window_info in Hh. rewrite Hh. cbn.
  now exists r, w', res, (rest ++ t2).
Qed.

(** C10: the two overrides are applied independently.  With only the start
    time supplied (the end time absent or empty) the window is the parsed
    start with the default end; with only the end time supplied it is the
    default start with the parsed end; in both cases UTC is attached and
    the check end <= begin is made on that mixed pair: the run exits with
    -1 after logging the pair when it fails, and the pair is returned when
    it passes. *)
Theorem overrides_apply_independently (w : World) LOG b0 e0 s x :
  Strptime.strptime s = Some x ->
  (start_time CONF = Some s ->
   end_time CONF = None \/ end_time CONF = Some ""%string ->
   time_error LOG b0 e0 w
   = if leb (mkAware e0 UTC) (mkAware x UTC)
     then (inl (SystemExit (-1)), w,
           [EvLog ERROR (time_error_msg (mkAware x UTC) (mkAware e0 UTC))
              [] None])
     else (inr (mkAware x UTC, mkAware e0 UTC), w, []))
  /\ (start_time CONF = None \/ start_time CONF = Some ""%string ->
      end_time CONF = Some s ->
      time_error LOG b0 e0 w
      = if leb (mkAware x UTC) (mkAware b0 UTC)
        then (inl (SystemExit (-1)), w,
              [EvLog ERROR (time_error_msg (mkAware b0 UTC) (mkAware x UTC))
                 [] None])
        else (inr (mkAware b0 UTC, mkAware x UTC), w, [])).
Proof.
  intros Hx. split.
  - intros Hs He. apply (time_error_resolved LOG b0 e0 x e0 w).
    + rewrite Hs. now apply resolved_parsed.
    + now apply resolved_absent.
  - intros Hs He. apply (time_error_resolved LOG b0 e0 b0 x w).
    + now apply resolved_absent.
    + rewrite He. now apply resolved_parsed.
Qed.

(** *** Stretches of a run *)

Lemma failures_logged_app t1 t2 :
  failures_logged t1 -> failures_logged t2 -> failures_logged (t1 ++ t2).
Proof.
  intros H1 H2. induction t1 as [|ev t1 IH]; [exact H2|].
  destruct ev as [| |k ctx r s x [ex|]]; cbn in *; auto.
  destruct H1 as ((fmt & args & rsrc & rest' & -> & Hin) & H1).
  split; [|now apply IH].
  now exists fmt, args, rsrc, (rest' ++ t2).
Qed.

Lemma served_incl k ctx b e r t t' :
  incl t t' -> served CONF k ctx b e r t -> served CONF k ctx b e r t'.
Proof.
  intros Hi (H1 & H2 & H3). split; [|split].
  - destruct H1 as (res & H). exists res. now apply Hi.
  - intros Hs Hb He. destruct (H2 Hs Hb He) as (res & H).
    exists res. now apply Hi.
  - intros Hs d Hd Hb He. destruct (H3 Hs d Hd Hb He) as (res & H).
    exists res. now apply Hi.
Qed.

Lemma notify_calls_app t1 t2 :
  notify_calls (t1 ++ t2) = notify_calls t1 ++ notify_calls t2.
Proof. apply flat_map_app. Qed.

Lemma exists_calls_due_app t1 t2 :
  exists_calls_due (t1 ++ t2) = exists_calls_due t1 ++ exists_calls_due t2.
Proof. apply flat_map_app. Qed.

Lemma notify_calls_filter t : notify_calls t = notify_calls (filter is_notify t).
Proof.
  unfold notify_calls.
  induction t as [|ev t IH]; [reflexivity|].
  destruct ev; cbn; now rewrite <- IH.
Qed.

Lemma no_fetch_no_due t : filter is_fetch t = [] -> exists_calls_due t = [].
Proof.
  unfold exists_calls_due.
  induction t as [|ev t IH]; [reflexivity|].
  destruct ev; cbn; try exact IH. discriminate.
Qed.

Lemma no_fetch_not_in t k ctx b e res :
  filter is_fetch t = [] -> ~ In (EvFetch k ctx b e res) t.
Proof.
  intros H Hin.
  assert (Hf : In (EvFetch k ctx b e res) (filter is_fetch t))
    by (apply filter_In; now split).
  now rewrite H in Hf.
Qed.

(** Two stretches in a row. *)
Lemma stretch_app o t1 t2 :
  stretch_ok CONF (inr tt) t1 -> stretch_ok CONF o t2 ->
  stretch_ok CONF o (t1 ++ t2).
Proof.
  intros (S1 & L1 & N1 & _) (S2 & L2 & N2 & F2). split; [|split; [|split]].
  - intros k ctx b e l r Hin Hr. apply in_app_or in Hin as [Hin | Hin].
    + apply (served_incl _ _ _ _ _ t1); [apply incl_appl, incl_refl|eauto].
    + apply (served_incl _ _ _ _ _ t2); [apply incl_appr, incl_refl|eauto].
  - now apply failures_logged_app.
  - intros Hs. now rewrite notify_calls_app, exists_calls_due_app, N1, N2.
  - intros f Hf. destruct (F2 f Hf) as (ex & t0 & k & ctx & b & e & -> & ->).
    exists ex, (t1 ++ t0), k, ctx, b, e. now rewrite app_assoc.
Qed.

(** A log entry is a stretch of its own. *)
Lemma stretch_log lvl fmt args rsrc :
  stretch_ok CONF (inr tt) [EvLog lvl fmt args rsrc].
Proof.
  split; [|split; [|split]]; cbn; try easy.
  intros k ctx b e l r [H | []]. discriminate.
Qed.

Lemma bind_logged {A B} (m : M World A) (k : A -> M World B) w :
  failures_logged (trace (m w)) ->
  (forall a w1, failures_logged (trace (k a w1))) ->
  failures_logged (trace (bind World m k w)).
Proof.
  intros H1 H2. unfold bind, trace in *.
  destruct (m w) as [[[f|a] w1] t1]; [exact H1|].
  specialize (H2 a w1). destruct (k a w1) as [[r w2] t2].
  now apply failures_logged_app.
Qed.

Lemma exists_helper_logged k LOG r extra ctx w :
  failures_logged (trace (exists_helper World bus k LOG r extra ctx w)).
Proof.
  destruct k; cbn [exists_helper];
    unfold _vol_notify_usage, _snap_notify_usage, _backup_notify_usage,
      try_except, bind, LOG_debug, LOG_error, emit,
      notify_about_volume_usage, notify_about_snapshot_usage,
      notify_about_backup_usage, notify_about_usage_of;
    destruct (bus _ ctx r "exists"%string extra w) as [[ex|] w1];
    cbn; try easy; (split; [|easy]); do 4 eexists;
    (split; [reflexivity|]); cbn; auto.
Qed.

Lemma create_action_logged k LOG r ctx tid tn w :
  failures_logged
    (trace (_create_action World r ctx LOG (notify_of k) tid tn w)).
Proof.
  unfold _create_action, try_except, bind, LOG_debug, LOG_error, emit,
    notify_about_usage_of.
  destruct (bus k ctx r "create.start"%string _ w) as [[ex|] w1]; cbn.
  - split; [|easy]. do 4 eexists. split; [reflexivity|]. cbn. auto.
  - destruct (bus k ctx r "create.end"%string _ w1) as [[ex|] w2]; cbn;
      [|easy].
    split; [|easy]. do 4 eexists. split; [reflexivity|]. cbn. auto.
Qed.

Lemma delete_action_logged k LOG r ctx tid tn w :
  failures_logged
    (trace (_delete_action World r ctx LOG (notify_of k) tid tn w)).
Proof.
  unfold _delete_action, try_except, bind, LOG_debug, LOG_error, emit,
    notify_about_usage_of.
  destruct (bus k ctx r "delete.start"%string _ w) as [[ex|] w1]; cbn.
  - split; [|easy]. do 4 eexists. split; [reflexivity|]. cbn. auto.
  - destruct (bus k ctx r "delete.end"%string _ w1) as [[ex|] w2]; cbn;
      [|easy].
    split; [|easy]. do 4 eexists. split; [reflexivity|]. cbn. auto.
Qed.

Lemma action_logged k LOG r extra ctx b e w :
  failures_logged (trace (action_of k LOG r extra ctx b e w)).
Proof.
  unfold obj_ref_action_of, _obj_ref_action.
  apply bind_logged; [apply exists_helper_logged|]. intros _ w1.
  destruct (send_actions CONF); [|exact I].
  apply bind_logged.
  - destruct (strictly_between b (created_at r) e);
      [apply create_action_logged | exact I].
  - intros _ w2. destruct (deleted_between b (deleted_at r) e);
      [apply delete_action_logged | exact I].
Qed.

(** One record as a stretch of the run. *)
Lemma action_stretch k LOG r ctx b e w :
  exists w' t,
    action_of k LOG r (window_info b e) ctx b e w = (inr tt, w', t)
    /\ filter is_fetch t = []
    /\ failures_logged t
    /\ served CONF k ctx b e r t
    /\ (send_actions CONF = false ->
        notify_calls t = [(k, r, "exists"%string, window_info b e)]).
Proof.
  pose proof (action_logged k LOG r (window_info b e) ctx b e w) as Hl.
  destruct (action_notifications k LOG r (window_info b e) ctx b e w)
    as (nc & nd & Hout & Hf & Hn & _ & Hc0 & Hc1 & Hd0 & Hd1).
  destruct (action_of k LOG r (window_info b e) ctx b e w) as [[o w'] t].
  cbn [trace outcome fst snd] in *. subst o.
  exists w', t. split; [reflexivity|]. split; [exact Hf|].
  split; [exact Hl|]. split; [split; [|split]|].
  - eexists. apply (proj1 (filter_In is_notify _ t)). rewrite Hn. now left.
  - intros Hs Hb He.
    assert (Hg : send_actions CONF
                 && strictly_between b (created_at r) e = true).
    { rewrite Hs. cbn. now apply gate_spec. }
    destruct (Hc1 Hg) as [(res & Hnc & _) | (ex' & Hnc & _)];
      eexists; apply (proj1 (filter_In is_notify _ t)); rewrite Hn, Hnc;
      right; now left.
  - intros Hs d Hsome Hb He.
    assert (Hg : send_actions CONF
                 && deleted_between b (deleted_at r) e = true).
    { rewrite Hs. cbn. apply deleted_between_spec. now exists d. }
    destruct (Hd1 d Hsome Hg) as [(res & Hnd & _) | (ex' & Hnd & _)];
      eexists; apply (proj1 (filter_In is_notify _ t)); rewrite Hn, Hnd;
      right; apply in_or_app; right; now left.
  - intros Hs. rewrite Hs in Hc0, Hd0. cbn in Hc0, Hd0.
    now rewrite notify_calls_filter, Hn, (Hc0 eq_refl), (Hd0 eq_refl).
Qed.

(** The loop over the records of one kind as a stretch of the run. *)
Lemma each_stretch k LOG ctx b e l w :
  exists w' t,
    each l (fun r => action_of k LOG r (window_info b e) ctx b e) w
    = (inr tt, w', t)
    /\ filter is_fetch t = []
    /\ failures_logged t
    /\ (forall r, In r l -> served CONF k ctx b e r t)
    /\ (send_actions CONF = false ->
        notify_calls t
        = map (fun r => (k, r, "exists"%string, window_info b e)) l).
Proof.
  revert w. induction l as [|r l IH]; intros w.
  - exists w, []. cbn. repeat split; easy.
  - cbn [for_each]. unfold bind.
    destruct (action_stretch k LOG r ctx b e w)
      as (w1 & t1 & -> & Hf1 & Hl1 & Hs1 & Hn1).
    destruct (IH w1) as (w2 & t2 & -> & Hf2 & Hl2 & Hs2 & Hn2).
    exists w2, (t1 ++ t2). split; [reflexivity|].
    split; [now rewrite filter_app, Hf1, Hf2|].
    split; [now apply failures_logged_app|]. split.
    + intros r' [<- | Hin].
      * apply (served_incl _ _ _ _ _ t1); [apply incl_appl, incl_refl|easy].
      * apply (served_incl _ _ _ _ _ t2); [apply incl_appr, incl_refl|eauto].
    + intros Hs. now rewrite notify_calls_app, (Hn1 Hs), (Hn2 Hs).
Qed.

(** One block of [main] as a stretch of the run. *)
Lemma audit_kind_stretch k LOG ctx b e w :
  stretch_ok CONF
    (outcome (run_kind k LOG (window_info b e) ctx b e w))
    (trace (run_kind k LOG (window_info b e) ctx b e w)).
Proof.
  unfold audit_kind, bind, get_all_active_by_window, LOG_info, emit.
  destruct (db k ctx b e w) as [[ex|l] w1].
  - cbn. split; [|split; [|split]]; try easy.
    + intros k' ctx' b' e' l r [H | []]. discriminate.
    + intros f [= <-]. now exists ex, [], k, ctx, b, e.
  - destruct (each_stretch k LOG ctx b e l w1)
      as (w2 & t & -> & Hf & Hl & Hs & Hn).
    cbn. split; [|split; [|split]]; try easy.
    + intros k' ctx' b' e' l' r [H | [H | H]];
        [| discriminate | now apply no_fetch_not_in in H].
      destruct ctx, ctx'. inversion H; subst. intros Hr.
      apply (served_incl _ _ _ _ _ t); [|now apply Hs].
      intros ev Hev. now right; right.
    + intros Hsa.
      change (notify_calls t
              = map (fun r => (k, r, "exists"%string, window_info b e)) l
                ++ exists_calls_due t).
      rewrite (no_fetch_no_due t Hf), app_nil_r. now apply Hn.
Qed.

Lemma bind_silent {A B} (m : M World A) (k : A -> M World B) w a w1 :
  m w = (inr a, w1, []) -> bind World m k w = k a w1.
Proof.
  intros H. unfold bind. rewrite H. now destruct (k a w1) as [[r w2] t2].
Qed.

Lemma bind_stretch (m : M World unit) (k : unit -> M World unit) w :
  stretch_ok CONF (outcome (m w)) (trace (m w)) ->
  (forall w1, stretch_ok CONF (outcome (k tt w1)) (trace (k tt w1))) ->
  stretch_ok CONF (outcome (bind World m k w)) (trace (bind World m k w)).
Proof.
  intros H1 H2. unfold bind, outcome, trace in *.
  destruct (m w) as [[[f|[]] w1] t1]; [exact H1|].
  specialize (H2 w1). destruct (k tt w1) as [[r w2] t2].
  cbn [fst snd] in *. now apply stretch_app.
Qed.

(** [_time_error] makes no list query and no notifier call and leaves the
    collaborators alone; it logs only when it fails. *)
Lemma time_error_cases LOG b0 e0 w :
  (exists be, time_error LOG b0 e0 w = (inr be, w, []))
  \/ (exists f t, time_error LOG b0 e0 w = (inl f, w, t)
                  /\ filter is_fetch t = [] /\ filter is_notify t = []).
Proof.
  unfold _time_error, bind, override, datetime_strptime, raise, ret,
    LOG_error, emit, sys_exit.
  destruct (start_time CONF) as [s|];
    [destruct (String.eqb s ""); [|destruct (Strptime.strptime s)]|];
    (destruct (end_time CONF) as [s'|];
     [destruct (String.eqb s' ""); [|destruct (Strptime.strptime s')]|]);
    try destruct (leb _ _); cbn; eauto 6.
Qed.

(** A run that gets past the window check is a stretch in order. *)
Lemma main_stretch w be w1 :
  time_error (Logger "cinder") (fst (clock w)) (snd (clock w)) w
  = (inr be, w1, []) ->
  stretch_ok CONF (outcome (run_main w)) (trace (run_main w)).
Proof.
  intros Hte. rewrite main_eq.
  unfold main_by_kind, last_completed_audit_period, getLogger.
  cbv zeta. rewrite (bind_silent _ _ w (clock w) w eq_refl).
  rewrite (bind_silent _ _ w be w1 Hte).
  unfold LOG_info.
  apply bind_stretch; [apply stretch_log|]. intros w2.
  apply bind_stretch; [apply stretch_log|]. intros w3.
  apply bind_stretch; [apply audit_kind_stretch|]. intros w4.
  apply bind_stretch; [apply audit_kind_stretch|]. intros w5.
  apply bind_stretch; [apply audit_kind_stretch|]. intros w6.
  apply stretch_log.
Qed.

(** *** Claims about one record *)

(** C2: the action notifications use strict inequality on both bounds.
    For every record, kind and notifier behaviour, a create notification
    is in the trace of [_obj_ref_action] exactly when [send_actions] is on
    and begin < created_at < end, and a delete notification exactly when
    [send_actions] is on and deleted_at is set with
    begin < deleted_at < end.  So a record created exactly at begin or at
    end gets no create notification, and a record deleted exactly at begin
    or at end gets no delete notification, whatever [send_actions] is. *)
Theorem action_window_bounds_are_strict k LOG r extra ctx b e w :
  let t := trace (action_of k LOG r extra ctx b e w) in
  (existsb is_create t = true <->
   send_actions CONF = true
   /\ ltb b (created_at r) = true /\ ltb (created_at r) e = true)
  /\ (existsb is_delete t = true <->
      send_actions CONF = true
      /\ exists d, deleted_at r = Some d
                   /\ ltb b d = true /\ ltb d e = true)
  /\ (created_at r = b \/ created_at r = e -> existsb is_create t = false)
  /\ (deleted_at r = Some b \/ deleted_at r = Some e ->
      existsb is_delete t = false).
Proof.
  intros t.
  destruct (action_filters k LOG r extra ctx b e w) as (Hc0 & Hc1 & Hd0 & Hd1).
  fold t in Hc0, Hc1, Hd0, Hd1.
  assert (Hc : existsb is_create t
               = send_actions CONF && strictly_between b (created_at r) e).
  { rewrite existsb_filter.
    destruct (send_actions CONF && strictly_between b (created_at r) e).
    - now destruct (Hc1 eq_refl) as [(res & -> & _) | (ex & -> & _)].
    - now rewrite (Hc0 eq_refl). }
  assert (Hd : existsb is_delete t
               = send_actions CONF && deleted_between b (deleted_at r) e).
  { rewrite existsb_filter.
    destruct (send_actions CONF && deleted_between b (deleted_at r) e) eqn:Hg.
    - apply andb_true_iff in Hg as [_ Hg].
      apply deleted_between_spec in Hg as (d & Hsome & _).
      now destruct (Hd1 d Hsome eq_refl) as [(res & -> & _) | (ex & -> & _)].
    - now rewrite (Hd0 eq_refl). }
  rewrite Hc, Hd, !andb_true_iff, gate_spec, deleted_between_spec.
  split; [reflexivity|]. split; [reflexivity|]. split.
  - intros [-> | ->]; unfold strictly_between;
      rewrite ltb_irrefl; cbn [andb]; now rewrite ?andb_false_r.
  - intros [-> | ->]; cbn [deleted_between]; unfold strictly_between;
      rewrite ltb_irrefl; cbn [andb]; now rewrite ?andb_false_r.
Qed.

(** C3 (as the code has it): for a record with begin < created_at < end
    and [send_actions] on, "create.start" is always sent first, with both
    period fields of its extra info equal to str(created_at); "create.end"
    is sent next, with the same extra info, when "create.start" did not
    fail, and is not sent when it failed.  These are the only create
    notifications of the record.  A failure of either is logged as an
    error for the record, [_obj_ref_action] returns, and the loop over the
    records runs to its end. *)
Theorem create_pair_stops_at_first_failure k LOG r extra ctx b e w :
  send_actions CONF = true ->
  ltb b (created_at r) = true -> ltb (created_at r) e = true ->
  let t := trace (action_of k LOG r extra ctx b e w) in
  let x := {| audit_period_beginning := str (created_at r);
              audit_period_ending := str (created_at r) |} in
  ((exists res,
      filter is_create t
      = [EvNotify k ctx r "create.start" x None;
         EvNotify k ctx r "create.end" x res]
      /\ forall ex, res = Some ex -> In (create_failed k r ex) t)
   \/ (exists ex,
         filter is_create t = [EvNotify k ctx r "create.start" x (Some ex)]
         /\ In (create_failed k r ex) t))
  /\ outcome (action_of k LOG r extra ctx b e w) = inr tt
  /\ forall l w',
       outcome (each (r :: l) (fun r => action_of k LOG r extra ctx b e) w')
       = inr tt.
Proof.
  intros Hs Hb He t x.
  destruct (action_filters k LOG r extra ctx b e w) as (_ & Hc1 & _).
  split; [|split].
  - apply Hc1. rewrite Hs. cbn. now apply gate_spec.
  - now destruct (action_notifications k LOG r extra ctx b e w)
      as (nc & nd & H & _).
  - intros l w'. apply each_returns.
Qed.

(** C4 (as the code has it): with [send_actions] on, "delete.start" is
    sent exactly when deleted_at is set and begin < deleted_at < end, with
    both period fields of its extra info equal to str(deleted_at);
    "delete.end" is sent next, with the same extra info, when
    "delete.start" did not fail, and is not sent when it failed; no delete
    notification is sent otherwise.  A failure of either is logged as an
    error for the record, [_obj_ref_action] returns, and the loop over the
    records runs to its end. *)
Theorem delete_pair_stops_at_first_failure k LOG r extra ctx b e w :
  send_actions CONF = true ->
  let t := trace (action_of k LOG r extra ctx b e w) in
  (existsb (has_suffix ["delete.start"%string]) t = true <->
   exists d, deleted_at r = Some d /\ ltb b d = true /\ ltb d e = true)
  /\ ((forall d, deleted_at r = Some d -> ltb b d && ltb d e = false) ->
      filter is_delete t = [])
  /\ (forall d, deleted_at r = Some d -> ltb b d = true -> ltb d e = true ->
      let x := {| audit_period_beginning := str d;
                  audit_period_ending := str d |} in
      (exists res,
         filter is_delete t
         = [EvNotify k ctx r "delete.start" x None;
            EvNotify k ctx r "delete.end" x res]
         /\ forall ex, res = Some ex -> In (delete_failed k r ex) t)
      \/ (exists ex,
            filter is_delete t
            = [EvNotify k ctx r "delete.start" x (Some ex)]
            /\ In (delete_failed k r ex) t))
  /\ outcome (action_of k LOG r extra ctx b e w) = inr tt
  /\ forall l w',
       outcome (each (r :: l) (fun r => action_of k LOG r extra ctx b e) w')
       = inr tt.
Proof.
  intros Hs t.
  destruct (action_filters k LOG r extra ctx b e w) as (_ & _ & Hd0 & Hd1).
  fold t in Hd0, Hd1. rewrite Hs in Hd0, Hd1. cbn [andb] in Hd0, Hd1.
  assert (Hstart : existsb (has_suffix ["delete.start"%string]) t
                   = deleted_between b (deleted_at r) e).
  { rewrite existsb_filter.
    assert (Hsub : forall n,
      filter (has_suffix ["delete.start"%string]) n
      = filter (has_suffix ["delete.start"%string]) (filter is_delete n)).
    { induction n as [|ev n IH]; [reflexivity|].
      destruct ev as [| |k' c' r' s' x' res']; cbn; try exact IH.
      destruct (String.eqb s' "delete.start") eqn:E1;
        destruct (String.eqb s' "delete.end") eqn:E2;
        cbn; rewrite ?E1; cbn; now rewrite ?IH. }
    rewrite Hsub.
    destruct (deleted_between b (deleted_at r) e) eqn:Hg.
    - destruct (proj1 (deleted_between_spec _ _ _) Hg) as (d & Hsome & _).
      now destruct (Hd1 d Hsome eq_refl) as [(res & -> & _) | (ex & -> & _)].
    - now rewrite (Hd0 eq_refl). }
  split; [rewrite Hstart; apply deleted_between_spec|].
  split; [|split; [|split]].
  - intros H. apply Hd0. destruct (deleted_at r) as [d|]; [|reflexivity].
    exact (H d eq_refl).
  - intros d Hsome Hb He x. apply (Hd1 d Hsome).
    apply deleted_between_spec. now exists d.
  - now destruct (action_notifications k LOG r extra ctx b e w)
      as (nc & nd & H & _).
  - intros l w'. apply each_returns.
Qed.



(** *** Claims about a whole run *)



(** C7: without [send_actions] each fetched record gets exactly one
    notifier call, its "exists" notification, whose extra info is the
    window of the list query stringified: the notifier calls of a run are,
    in order, one "exists" call per record returned by the list queries
    and no other, and [_obj_ref_action] makes exactly one call.  In the
    run for the window 2024-03-01 00:00:00 to 01:00:00 that finds one
    volume created at 00:30:00 and not deleted, the only notification is
    its "exists", with audit_period_beginning "2024-03-01 00:00:00+00:00"
    and audit_period_ending "2024-03-01 01:00:00+00:00". *)
Theorem exists_only_without_send_actions w :
  (send_actions CONF = false ->
   notify_calls (trace (run_main w)) = exists_calls_due (trace (run_main w))
   /\ forall k LOG r extra ctx b e w',
        notify_calls (trace (action_of k LOG r extra ctx b e w'))
        = [(k, r, "exists"%string, extra)])
  /\ filter is_notify
       (trace (main unit Example.clock Example.db_one_volume Example.bus_ok
                 (Example.hour_window false) tt))
     = [EvNotify Volume AdminContext
          (mkObj "vol-1" "project-a"
             (mkAware (mkDatetime 2024 3 1 0 30 0 0) UTC) None)
          "exists"
          {| audit_period_beginning := "2024-03-01 00:00:00+00:00";
             audit_period_ending := "2024-03-01 01:00:00+00:00" |}
          None].
Proof.
  split; [|vm_compute; reflexivity].
  intros Hs. split.
  - destruct (time_error_cases (Logger "cinder") (fst (clock w))
                (snd (clock w)) w)
      as [(be & Hte) | (f & t & Hte & Hf & Hn)].
    + destruct (main_stretch w be w Hte) as (_ & _ & N & _). now apply N.
    + rewrite (main_stops f w w t Hte). cbn [trace snd].
      now rewrite notify_calls_filter, Hn, (no_fetch_no_due t Hf).
  - intros k LOG r extra ctx b e w'.
    destruct (action_notifications k LOG r extra ctx b e w')
      as (nc & nd & _ & _ & Hn & _ & Hc0 & _ & Hd0 & _).
    rewrite Hs in Hc0, Hd0. cbn in Hc0, Hd0.
    now rewrite notify_calls_filter, Hn, (Hc0 eq_refl), (Hd0 eq_refl).
Qed.

End Properties.

(** *** Concrete runs of the window theorems *)

Import Example.

Lemma invalid_override_window_is_fatal_witness :
  main unit clock db bus_ok reversed_window tt
  = (inl (SystemExit (-1)), tt,
     [EvLog ERROR
        ("The end time (2024-03-01 00:00:00+00:00) must be after the "
         ++ "start time (2024-03-01 01:00:00+00:00).")%string [] None]).
Proof.
  exact (proj1 (invalid_override_window_is_fatal unit clock db bus_ok
                  reversed_window tt _ _ (at_ 1 0) (at_ 0 0)
                  eq_refl eq_refl eq_refl eq_refl eq_refl)).
Defined.

Lemma valid_override_window_is_used_witness :
  _time_error unit (hour_window false) (Logger "cinder") (at_ 1 0) (at_ 2 0)
    tt
  = (inr (mkAware (at_ 0 0) UTC, mkAware (at_ 1 0) UTC), tt, []).
Proof.
  exact (proj1 (valid_override_window_is_used unit clock db bus_ok
                  (hour_window false) tt (Logger "cinder") (at_ 1 0)
                  (at_ 2 0) _ _ (at_ 0 0) (at_ 1 0)
                  eq_refl eq_refl eq_refl eq_refl eq_refl)).
Defined.

Lemma overrides_apply_independently_witness :
  _time_error unit (mkConf (Some "2024-03-01 00:00:00"%string) None false)
    (Logger "cinder") (at_ 1 0) (at_ 2 0) tt
  = (inr (mkAware (at_ 0 0) UTC, mkAware (at_ 2 0) UTC), tt, [])
  /\ _time_error unit (mkConf (Some ""%string)
                         (Some "2024-03-01 01:00:00"%string) false)
       (Logger "cinder") (at_ 1 0) (at_ 2 0) tt
     = (inl (SystemExit (-1)), tt,
        [EvLog ERROR
           ("The end time (2024-03-01 01:00:00+00:00) must be after the "
            ++ "start time (2024-03-01 01:00:00+00:00).")%string [] None]).
Proof.
  split.
  - exact (proj1 (overrides_apply_independently unit
                    (mkConf (Some "2024-03-01 00:00:00"%string) None false)
                    tt (Logger "cinder")
                    (at_ 1 0) (at_ 2 0) "2024-03-01 00:00:00" (at_ 0 0)
                    eq_refl) eq_refl (or_introl eq_refl)).
  - exact (proj2 (overrides_apply_independently unit
                    (mkConf (Some ""%string)
                       (Some "2024-03-01 01:00:00"%string) false)
                    tt (Logger "cinder")
                    (at_ 1 0) (at_ 2 0) "2024-03-01 01:00:00" (at_ 1 0)
                    eq_refl) (or_intror eq_refl) eq_refl).
Defined.

(** *** Concrete runs of the notification theorems *)

Lemma action_window_bounds_are_strict_witness :
  existsb is_create (trace (volume_action bus_ok vol_on_bounds)) = false
  /\ existsb is_delete (trace (volume_action bus_ok vol_on_bounds)) = false.
Proof.
  destruct (action_window_bounds_are_strict unit bus_ok (hour_window true)
              Volume (Logger "cinder") vol_on_bounds
              (window_info begin0 end1) AdminContext begin0 end1 tt)
    as (_ & _ & Hc & Hd).
  split; [apply Hc; left; reflexivity | apply Hd; right; reflexivity].
Defined.

(** C3, as the claim states it, fails: when "create.start" fails for a
    volume created inside the window, with [send_actions] on, "create.end"
    is not sent at all. *)
Lemma create_end_skipped_after_failed_create_start :
  let t := trace (volume_action (bus_failing "create.start") vol1) in
  send_actions (hour_window true) = true
  /\ ltb begin0 (created_at vol1) = true
  /\ ltb (created_at vol1) end1 = true
  /\ existsb (has_suffix ["create.start"%string]) t = true
  /\ existsb (has_suffix ["create.end"%string]) t = false.
Proof. vm_compute. repeat split. Qed.

Lemma create_pair_stops_at_first_failure_witness :
  outcome (volume_action (bus_failing "create.start") vol1) = inr tt.
Proof.
  exact (proj1 (proj2 (create_pair_stops_at_first_failure unit
                         (bus_failing "create.start") (hour_window true)
                         Volume (Logger "cinder") vol1
                         (window_info begin0 end1) AdminContext begin0 end1
                         tt eq_refl eq_refl eq_refl))).
Defined.

(** C4, as the claim states it, fails: when "delete.start" fails for a
    volume deleted inside the window, with [send_actions] on, the gate is
    open but "delete.end" is not sent, so the pair is not emitted. *)
Lemma delete_end_skipped_after_failed_delete_start :
  let t := trace (volume_action (bus_failing "delete.start") vol2) in
  send_actions (hour_window true) = true
  /\ deleted_at vol2 = Some (utc (at_ 0 40))
  /\ ltb begin0 (utc (at_ 0 40)) = true
  /\ ltb (utc (at_ 0 40)) end1 = true
  /\ existsb (has_suffix ["delete.start"%string]) t = true
  /\ existsb (has_suffix ["delete.end"%string]) t = false.
Proof. vm_compute. repeat split. Qed.

Lemma delete_pair_stops_at_first_failure_witness :
  outcome (volume_action (bus_failing "delete.start") vol2) = inr tt.
Proof.
  exact (proj1 (proj2 (proj2 (proj2
           (delete_pair_stops_at_first_failure unit
              (bus_failing "delete.start") (hour_window true)
              Volume (Logger "cinder") vol2
              (window_info begin0 end1) AdminContext begin0 end1
              tt eq_refl))))).
Defined.

Lemma exists_only_without_send_actions_witness :
  notify_calls (trace (main unit clock db bus_down (hour_window false) tt))
  = [(Volume, vol1, "exists"%string, window_info begin0 end1);
     (Volume, vol2, "exists"%string, window_info begin0 end1);
     (Snapshot, snap1, "exists"%string, window_info begin0 end1)].
Proof.
  rewrite (proj1 (proj1 (exists_only_without_send_actions unit clock db
                           bus_down (hour_window false) tt) eq_refl)).
  vm_compute. reflexivity.
Defined.



End AuditSpec.

(* ================================================================== *)
(** ** Further properties of the audit script *)

Module AuditExtra.
Import Datetime DatetimeFacts Audit Observe AuditSpec.
Local Open Scope list_scope.

Section Window.
Set Default Proof Using "Type".

Variable World : Type.
Variable clock : World -> datetime * datetime.
Variable db :
  kind -> context -> aware -> aware -> World -> (exn + list obj_ref) * World.
Variable bus :
  kind -> context -> obj_ref -> string -> extra_info ->
  World -> option exn * World.
Variable CONF : conf.

Abbreviation time_error := (_time_error World CONF).
Abbreviation run_main := (main World clock db bus CONF).

(** An applied option that does not parse makes [_time_error] raise. *)
Lemma time_error_unparsed LOG b0 e0 w :
  resolved (start_time CONF) b0 = None
  \/ (exists b, resolved (start_time CONF) b0 = Some b)
     /\ resolved (end_time CONF) e0 = None ->
  exists ex, exn_class ex = "ValueError"%string
             /\ time_error LOG b0 e0 w = (inl (Raise ex), w, []).
Proof.
  assert (Hn : forall o d, resolved o d = None ->
            exists ex, exn_class ex = "ValueError"%string
                       /\ override World o d w = (inl (Raise ex), w, [])).
  { intros o d. unfold resolved, override, datetime_strptime.
    destruct o as [s|]; [destruct (String.eqb s "")|]; try discriminate.
    intros ->. now exists (mkExn "ValueError" s). }
  assert (Hs : forall o d x, resolved o d = Some x ->
            override World o d w = (inr x, w, [])).
  { intros o d x. unfold resolved, override, datetime_strptime.
    destruct o as [s|]; [destruct (String.eqb s "")|].
    - now intros [= ->].
    - now intros ->.
    - now intros [= ->]. }
  intros [H | [(b & Hb) He]]; unfold _time_error, bind.
  - destruct (Hn _ _ H) as (ex & Hc & ->). now exists ex.
  - rewrite (Hs _ _ _ Hb). destruct (Hn _ _ He) as (ex & Hc & ->).
    now exists ex.
Qed.

(** X1: an override that is supplied but does not parse ends the run with
    an uncaught ValueError before anything else happens, whatever the
    other option is: the trace is empty (no log entry, not even the one of
    the window check, no list query, no notification) and the
    collaborators are untouched. *)
Theorem unparseable_override_is_fatal w s :
  s <> ""%string -> Strptime.strptime s = None ->
  start_time CONF = Some s \/ end_time CONF = Some s ->
  exists ex, exn_class ex = "ValueError"%string
             /\ run_main w = (inl (Raise ex), w, []).
Proof.
  intros Hne Hp H.
  assert (Hr : forall d, resolved (Some s) d = None)
    by (intros d; now rewrite resolved_supplied).
  destruct (time_error_unparsed (Logger "cinder") (fst (clock w))
              (snd (clock w)) w) as (ex & Hc & Hte).
  - destruct (resolved (start_time CONF) (fst (clock w))) as [b|] eqn:Hb;
      [|now left].
    right. split; [now exists b|].
    destruct H as [H | H]; rewrite H in *; [|apply Hr].
    rewrite Hr in Hb. discriminate.
  - exists ex. split; [exact Hc|]. now apply main_stops.
Qed.

(** X2: whatever the options and the default period are, a window that
    [_time_error] returns has begin < end; its bounds are the resolved
    start and end (the parsed option, or the default when the option is
    absent or empty) with UTC attached, nothing was logged and the
    collaborators are untouched. *)
Theorem returned_window_is_increasing LOG b0 e0 w be w' t :
  time_error LOG b0 e0 w = (inr be, w', t) ->
  ltb (fst be) (snd be) = true
  /\ resolved (start_time CONF) b0 = Some (naive (fst be))
  /\ resolved (end_time CONF) e0 = Some (naive (snd be))
  /\ tz (fst be) = UTC /\ tz (snd be) = UTC
  /\ w' = w /\ t = [].
Proof.
  intros H.
  destruct (resolved (start_time CONF) b0) as [b|] eqn:Hb.
  - destruct (resolved (end_time CONF) e0) as [e|] eqn:He.
    + rewrite (time_error_resolved _ _ LOG b0 e0 b e w Hb He) in H.
      rewrite leb_ltb in H.
      destruct (ltb (utc b) (utc e)) eqn:Hlt; cbn in H; [|discriminate].
      injection H as <- <- <-. cbn. now rewrite Hlt.
    + destruct (time_error_unparsed LOG b0 e0 w) as (ex & _ & Hte).
      * right. split; [now exists b | exact He].
      * rewrite Hte in H. discriminate.
  - destruct (time_error_unparsed LOG b0 e0 w) as (ex & _ & Hte).
    + now left.
    + rewrite Hte in H. discriminate.
Qed.

End Window.

Section Records.
Set Default Proof Using "Type".

Variable World : Type.
Variable bus :
  kind -> context -> obj_ref -> string -> extra_info ->
  World -> option exn * World.
Variable CONF : conf.

Abbreviation action_of := (obj_ref_action_of World bus CONF).
Abbreviation helper_of := (exists_helper World bus).
Abbreviation notify_of := (notify_about_usage_of World bus).

(** A property of traces that holds of the pieces holds of the whole. *)
Lemma bind_closed {A B} (P : list event -> Prop) (m : M World A)
    (k : A -> M World B) w :
  (forall t1 t2, P t1 -> P t2 -> P (t1 ++ t2)) ->
  P (trace (m w)) -> (forall a w1, P (trace (k a w1))) ->
  P (trace (bind World m k w)).
Proof.
  intros Happ H1 H2. unfold bind, trace in *.
  destruct (m w) as [[[f|a] w1] t1]; [exact H1|].
  specialize (H2 a w1). destruct (k a w1) as [[r w2] t2].
  now apply Happ.
Qed.

Lemma each_closed {A} (P : list event -> Prop) (l : list A)
    (body : A -> M World unit) w :
  P [] -> (forall t1 t2, P t1 -> P t2 -> P (t1 ++ t2)) ->
  (forall a w1, In a l -> P (trace (body a w1))) ->
  P (trace (for_each World l body w)).
Proof.
  intros Hnil Happ. revert w. induction l as [|a l IH]; intros w Hb.
  - exact Hnil.
  - cbn [for_each]. apply bind_closed; [exact Happ | apply Hb; now left|].
    intros _ w1. apply IH. intros a' w2 Hin. apply Hb. now right.
Qed.

Lemma balanced_app t1 t2 : balanced t1 -> balanced t2 -> balanced (t1 ++ t2).
Proof.
  unfold balanced. intros H1 H2. now rewrite !filter_app, !length_app, H1, H2.
Qed.

Lemma helper_balanced k LOG r extra ctx w :
  balanced (trace (helper_of k LOG r extra ctx w)).
Proof.
  destruct k; cbn [exists_helper];
    unfold _vol_notify_usage, _snap_notify_usage, _backup_notify_usage,
      try_except, bind, LOG_debug, LOG_error, emit,
      notify_about_volume_usage, notify_about_snapshot_usage,
      notify_about_backup_usage, notify_about_usage_of;
    destruct (bus _ ctx r "exists"%string extra w) as [[ex|] w1];
    reflexivity.
Qed.

Lemma create_balanced k LOG r ctx tid tn w :
  balanced (trace (_create_action World r ctx LOG (notify_of k) tid tn w)).
Proof.
  unfold _create_action, try_except, bind, LOG_debug, LOG_error, emit,
    notify_about_usage_of.
  destruct (bus k ctx r "create.start"%string _ w) as [[ex|] w1];
    [reflexivity|].
  destruct (bus k ctx r "create.end"%string _ w1) as [[ex|] w2];
    reflexivity.
Qed.

Lemma delete_balanced k LOG r ctx tid tn w :
  balanced (trace (_delete_action World r ctx LOG (notify_of k) tid tn w)).
Proof.
  unfold _delete_action, try_except, bind, LOG_debug, LOG_error, emit,
    notify_about_usage_of.
  destruct (bus k ctx r "delete.start"%string _ w) as [[ex|] w1];
    [reflexivity|].
  destruct (bus k ctx r "delete.end"%string _ w1) as [[ex|] w2];
    reflexivity.
Qed.

Lemma action_balanced k LOG r extra ctx b e w :
  balanced (trace (action_of k LOG r extra ctx b e w)).
Proof.
  unfold obj_ref_action_of, _obj_ref_action.
  apply bind_closed; [exact balanced_app | apply helper_balanced|].
  intros _ w1. destruct (send_actions CONF); [|reflexivity].
  apply bind_closed; [exact balanced_app | |].
  - destruct (strictly_between b (created_at r) e);
      [apply create_balanced | reflexivity].
  - intros _ w2. destruct (deleted_between b (deleted_at r) e);
      [apply delete_balanced | reflexivity].
Qed.

Lemma filter_failed_notify t :
  filter is_failed t = filter is_failed (filter is_notify t).
Proof.
  induction t as [|ev t IH]; [reflexivity|].
  destruct ev as [| |k c r s x [ex|]]; cbn; now rewrite <- IH.
Qed.

(** X3: what one record costs.  In every run of [_obj_ref_action] the
    first notifier call is the "exists" call of the record, there are at
    most five calls, at most three of them fail (each of the three
    handlers stops at its first failure), and the error entries of the log
    are as many as the failed calls: no failure is swallowed and no error
    is logged without one. *)
Theorem calls_and_errors_per_record k LOG r extra ctx b e w :
  let t := trace (action_of k LOG r extra ctx b e w) in
  (exists res rest,
     filter is_notify t = EvNotify k ctx r "exists" extra res :: rest)
  /\ List.length (notify_calls t) <= 5
  /\ List.length (filter is_failed t) <= 3
  /\ List.length (filter is_error t) = List.length (filter is_failed t).
Proof.
  intros t.
  destruct (action_notifications World bus CONF k LOG r extra ctx b e w)
    as (nc & nd & _ & _ & Hn & _ & Hc0 & Hc1 & Hd0 & Hd1).
  fold t in Hn, Hc1, Hd1.
  assert (Hnc : List.length (notify_calls nc) <= 2
                /\ List.length (filter is_failed nc) <= 1).
  { destruct (send_actions CONF && strictly_between b (created_at r) e).
    - destruct (Hc1 eq_refl) as [(res & -> & _) | (ex & -> & _)];
        [destruct res|]; cbn; auto.
    - rewrite (Hc0 eq_refl). cbn. auto. }
  assert (Hnd : List.length (notify_calls nd) <= 2
                /\ List.length (filter is_failed nd) <= 1).
  { destruct (send_actions CONF && deleted_between b (deleted_at r) e)
      eqn:Hg.
    - apply andb_true_iff in Hg as [_ Hg].
      apply deleted_between_spec in Hg as (d & Hsome & _).
      destruct (Hd1 d Hsome eq_refl) as [(res & -> & _) | (ex & -> & _)];
        [destruct res|]; cbn; auto.
    - rewrite (Hd0 eq_refl). cbn. auto. }
  destruct Hnc as [Hnc1 Hnc2], Hnd as [Hnd1 Hnd2].
  split; [eexists _, _; exact Hn|]. split; [|split].
  - rewrite notify_calls_filter, Hn.
    change (S (List.length (notify_calls (nc ++ nd))) <= 5).
    rewrite notify_calls_app, length_app. lia.
  - rewrite filter_failed_notify, Hn.
    assert (Hh : forall ev l, List.length (filter is_failed (ev :: l))
                              <= 1 + List.length (filter is_failed l)).
    { intros ev l. cbn. destruct (is_failed ev); cbn; lia. }
    etransitivity; [apply Hh|]. rewrite filter_app, length_app. lia.
  - apply action_balanced.
Qed.

(** X4: when no notifier call fails, a record gets its notifications in
    full and in a fixed order: "exists" with the extra info it was given,
    then "create.start" and "create.end" with str(created_at) if
    [send_actions] is on and begin < created_at < end, then "delete.start"
    and "delete.end" with str(deleted_at) if [send_actions] is on and
    deleted_at is set with begin < deleted_at < end. *)
Theorem all_notifications_when_none_fails k LOG r extra ctx b e w :
  let t := trace (action_of k LOG r extra ctx b e w) in
  (forall ev, In ev t -> is_failed ev = false) ->
  notify_calls t
  = (k, r, "exists"%string, extra)
    :: (if send_actions CONF
           && (ltb b (created_at r) && ltb (created_at r) e)
        then [(k, r, "create.start"%string, moment_info (created_at r));
              (k, r, "create.end"%string, moment_info (created_at r))]
        else [])
    ++ match deleted_at r with
       | Some d =>
           if send_actions CONF && (ltb b d && ltb d e)
           then [(k, r, "delete.start"%string, moment_info d);
                 (k, r, "delete.end"%string, moment_info d)]
           else []
       | None => []
       end.
Proof.
  intros t Hok.
  destruct (action_notifications World bus CONF k LOG r extra ctx b e w)
    as (nc & nd & _ & _ & Hn & _ & Hc0 & Hc1 & Hd0 & Hd1).
  fold t in Hn, Hc1, Hd1.
  assert (Hin : forall ev, In ev (nc ++ nd) -> is_failed ev = false).
  { intros ev Hev. apply Hok.
    apply (proj1 (filter_In is_notify ev t)). rewrite Hn. now right. }
  rewrite notify_calls_filter, Hn.
  change (notify_calls (EvNotify k ctx r "exists" extra
                          (fst (bus k ctx r "exists"%string extra w))
                        :: nc ++ nd))
    with ((k, r, "exists"%string, extra) :: notify_calls (nc ++ nd)).
  rewrite notify_calls_app. f_equal. f_equal.
  - fold (strictly_between b (created_at r) e).
    destruct (send_actions CONF && strictly_between b (created_at r) e).
    + destruct (Hc1 eq_refl) as [(res & -> & _) | (ex & -> & _)];
        [reflexivity|].
      specialize (Hin _ (or_introl eq_refl)). discriminate.
    + now rewrite (Hc0 eq_refl).
  - destruct (deleted_at r) as [d|] eqn:Hd.
    + fold (strictly_between b d e).
      change (strictly_between b d e) with (deleted_between b (Some d) e).
      destruct (send_actions CONF && deleted_between b (Some d) e).
      * destruct (Hd1 d eq_refl eq_refl) as [(res & -> & _) | (ex & -> & _)];
          [reflexivity|].
        assert (Hf : is_failed (EvNotify k ctx r "delete.start"
                                  (moment_info d) (Some ex)) = false).
        { apply Hin, in_or_app. right. now left. }
        discriminate.
      * now rewrite (Hd0 eq_refl).
    + cbn in Hd0. rewrite andb_false_r in Hd0. now rewrite (Hd0 eq_refl).
Qed.

(** X5: the three "exists" helpers do not log alike.  For a volume or a
    snapshot the DEBUG entry is written before the notifier is called,
    whether the call fails or not, and the ERROR entry of a failure
    carries the record as its resource.  For a backup the DEBUG entry is
    written after the call and only when it succeeded, and the ERROR entry
    carries no resource.  Each helper makes one call and returns, leaving
    the collaborators as the call left them. *)
Theorem exists_helpers_log_differently k LOG r extra ctx w :
  let res := fst (bus k ctx r "exists"%string extra w) in
  let call := EvNotify k ctx r "exists" extra res in
  exists dbg t,
    is_debug dbg = true
    /\ helper_of k LOG r extra ctx w
       = (inr tt, snd (bus k ctx r "exists"%string extra w), t)
    /\ t = match k, res with
           | Backup, None => [call; dbg]
           | Backup, Some ex =>
               [call;
                EvLog ERROR "Exists backups notification failed: %s"
                  [(""%string, AExn ex)] None]
           | Volume, None | Snapshot, None => [dbg; call]
           | Volume, Some ex =>
               [dbg; call;
                EvLog ERROR "Exists volume notification failed: %s"
                  [(""%string, AExn ex)] (Some r)]
           | Snapshot, Some ex =>
               [dbg; call;
                EvLog ERROR "Exists snapshot notification failed: %s"
                  [(""%string, AExn ex)] (Some r)]
           end.
Proof.
  intros res call. subst res call.
  destruct k; cbn [exists_helper];
    unfold _vol_notify_usage, _snap_notify_usage, _backup_notify_usage,
      try_except, bind, LOG_debug, LOG_error, emit,
      notify_about_volume_usage, notify_about_snapshot_usage,
      notify_about_backup_usage, notify_about_usage_of;
    destruct (bus _ ctx r "exists"%string extra w) as [[ex|] w1];
    cbn; eexists (EvLog DEBUG _ _ None), _;
    (split; [reflexivity|]); (split; reflexivity).
  Unshelve. all: first [exact ""%string | exact []].
Qed.

(** What [_obj_ref_action] leaves in the trace for a record of [l]. *)
Lemma action_events k LOG r ctx b e l w :
  In r l ->
  Forall (record_event k ctx b e l)
    (trace (action_of k LOG r (window_info b e) ctx b e w)).
Proof.
  intros Hin.
  assert (Hq : forall s x res,
            notification_ok b e r s x ->
            record_event k ctx b e l (EvNotify k ctx r s x res))
    by (intros; cbn; auto).
  assert (Hlog : forall lvl f a rs, lvl <> INFO ->
            record_event k ctx b e l (EvLog lvl f a rs))
    by (intros; assumption).
  unfold obj_ref_action_of, _obj_ref_action.
  apply bind_closed.
  - intros t1 t2 H1 H2. apply Forall_app. now split.
  - destruct k; cbn [exists_helper];
      unfold _vol_notify_usage, _snap_notify_usage, _backup_notify_usage,
        try_except, bind, LOG_debug, LOG_error, emit,
        notify_about_volume_usage, notify_about_snapshot_usage,
        notify_about_backup_usage, notify_about_usage_of;
      destruct (bus _ ctx r "exists"%string _ w) as [[ex|] w1]; cbn;
      repeat (first [apply Forall_nil | apply Forall_cons]);
        try (cbn [record_event]; discriminate); apply Hq; left; now split.
  - intros _ w1. destruct (send_actions CONF); [|constructor].
    apply bind_closed.
    + intros t1 t2 H1 H2. apply Forall_app. now split.
    + destruct (strictly_between b (created_at r) e); [|constructor].
      unfold _create_action, try_except, bind, LOG_debug, LOG_error, emit,
        notify_about_usage_of.
      destruct (bus k ctx r "create.start"%string _ w1) as [[ex|] w2]; cbn;
        [|destruct (bus k ctx r "create.end"%string _ w2) as [[ex|] w3];
          cbn];
        repeat (first [apply Forall_nil | apply Forall_cons]);
        try (cbn [record_event]; discriminate); apply Hq; right; left;
        (split; [|reflexivity]); auto.
    + intros _ w2. destruct (deleted_at r) as [d|] eqn:Hd;
        cbn [deleted_between]; [|constructor].
      destruct (strictly_between b d e); [|constructor].
      unfold _delete_action, try_except, bind, LOG_debug, LOG_error, emit,
        notify_about_usage_of. rewrite Hd. cbn [str_opt].
      destruct (bus k ctx r "delete.start"%string _ w2) as [[ex|] w3]; cbn;
        [|destruct (bus k ctx r "delete.end"%string _ w3) as [[ex|] w4];
          cbn];
        repeat (first [apply Forall_nil | apply Forall_cons]);
        try (cbn [record_event]; discriminate); apply Hq; right; right;
        (split; [auto | now exists d]).
Qed.

Lemma each_events k LOG ctx b e l w :
  Forall (record_event k ctx b e l)
    (trace (for_each World l
              (fun r => action_of k LOG r (window_info b e) ctx b e) w)).
Proof.
  apply each_closed.
  - constructor.
  - intros t1 t2 H1 H2. apply Forall_app. now split.
  - intros r w1 Hin. now apply action_events.
Qed.

Lemma bind_inr {A B} (m : M World A) (k : A -> M World B) w a w1 t1 :
  m w = (inr a, w1, t1) ->
  bind World m k w
  = (outcome (k a w1), snd (fst (k a w1)), t1 ++ trace (k a w1)).
Proof.
  intros H. unfold bind. rewrite H. now destruct (k a w1) as [[r w2] t2].
Qed.

Lemma bind_inl {A B} (m : M World A) (k : A -> M World B) w f w1 t1 :
  m w = (inl f, w1, t1) -> bind World m k w = (inl f, w1, t1).
Proof. intros H. unfold bind. now rewrite H. Qed.

Lemma exists_calls_app t1 t2 :
  exists_calls (t1 ++ t2) = exists_calls t1 ++ exists_calls t2.
Proof. unfold exists_calls. now rewrite notify_calls_app, filter_app. Qed.

(** Each record gets one "exists" call, whatever [send_actions] is and
    whatever fails. *)
Lemma action_exists_calls k LOG r extra ctx b e w :
  exists_calls (trace (action_of k LOG r extra ctx b e w))
  = [(k, r, "exists"%string, extra)].
Proof.
  destruct (action_notifications World bus CONF k LOG r extra ctx b e w)
    as (nc & nd & _ & _ & Hn & _ & Hc0 & Hc1 & Hd0 & Hd1).
  unfold exists_calls. rewrite notify_calls_filter, Hn.
  assert (Hnc : filter (fun c => String.eqb (snd (fst c)) "exists")
                  (notify_calls nc) = []).
  { destruct (send_actions CONF && strictly_between b (created_at r) e).
    - now destruct (Hc1 eq_refl) as [(res & -> & _) | (ex & -> & _)].
    - now rewrite (Hc0 eq_refl). }
  assert (Hnd : filter (fun c => String.eqb (snd (fst c)) "exists")
                  (notify_calls nd) = []).
  { destruct (send_actions CONF && deleted_between b (deleted_at r) e)
      eqn:Hg.
    - apply andb_true_iff in Hg as [_ Hg].
      apply deleted_between_spec in Hg as (d & Hsome & _).
      now destruct (Hd1 d Hsome eq_refl) as [(res & -> & _) | (ex & -> & _)].
    - now rewrite (Hd0 eq_refl). }
  change (notify_calls (EvNotify k ctx r "exists" extra
                          (fst (bus k ctx r "exists"%string extra w))
                        :: nc ++ nd))
    with ((k, r, "exists"%string, extra) :: notify_calls (nc ++ nd)).
  cbn. now rewrite notify_calls_app, filter_app, Hnc, Hnd.
Qed.

Lemma each_exists_calls k LOG extra ctx b e l w :
  exists_calls (trace (for_each World l
                         (fun r => action_of k LOG r extra ctx b e) w))
  = map (fun r => (k, r, "exists"%string, extra)) l.
Proof.
  revert w. induction l as [|r l IH]; intros w; [reflexivity|].
  cbn [for_each map].
  destruct (action_of k LOG r extra ctx b e w) as [[o w1] t1] eqn:Hr.
  pose proof (action_exists_calls k LOG r extra ctx b e w) as He.
  pose proof (action_notifications World bus CONF k LOG r extra ctx b e w)
    as (nc & nd & Ho & _).
  rewrite Hr in He, Ho. cbn [trace outcome fst snd] in He, Ho. subst o.
  rewrite (bind_inr _ _ w tt w1 t1 Hr). cbn [trace snd].
  now rewrite exists_calls_app, He, IH.
Qed.

End Records.

Section Runs.
Set Default Proof Using "Type".

Variable World : Type.
Variable clock : World -> datetime * datetime.
Variable db :
  kind -> context -> aware -> aware -> World -> (exn + list obj_ref) * World.
Variable bus :
  kind -> context -> obj_ref -> string -> extra_info ->
  World -> option exn * World.
Variable CONF : conf.

Abbreviation run_main := (main World clock db bus CONF).
Abbreviation run_kind := (audit_kind World db bus CONF).

(** The three ways [_time_error] ends. *)
Lemma time_error_outcomes LOG b0 e0 w :
  (exists b e, ltb (utc b) (utc e) = true
               /\ _time_error World CONF LOG b0 e0 w
                  = (inr (utc b, utc e), w, []))
  \/ (exists ex, _time_error World CONF LOG b0 e0 w
                 = (inl (Raise ex), w, []))
  \/ (exists msg, _time_error World CONF LOG b0 e0 w
                  = (inl (SystemExit (-1)), w, [EvLog ERROR msg [] None])).
Proof.
  destruct (resolved (start_time CONF) b0) as [b|] eqn:Hb.
  - destruct (resolved (end_time CONF) e0) as [e|] eqn:He.
    + rewrite (time_error_resolved _ _ LOG b0 e0 b e w Hb He), leb_ltb.
      destruct (ltb (utc b) (utc e)) eqn:Hlt; cbn; [left | right; right].
      * now exists b, e.
      * now eexists.
    + right; left.
      destruct (time_error_unparsed World CONF LOG b0 e0 w)
        as (ex & _ & ->); [|now exists ex].
      right. split; [now exists b | exact He].
  - right; left.
    destruct (time_error_unparsed World CONF LOG b0 e0 w)
      as (ex & _ & ->); [now left | now exists ex].
Qed.

(** The two ways the block of a kind ends. *)
Lemma block_cases k b e w :
  (exists ex w1,
     run_kind k (Logger "cinder") (window_info b e) AdminContext b e w
     = (inl (Raise ex), w1, [failed_query k b e ex]))
  \/ (exists l tl w1,
        loop_trace k b e l tl
        /\ run_kind k (Logger "cinder") (window_info b e) AdminContext b e w
           = (inr tt, w1, block k b e l tl)).
Proof.
  unfold audit_kind, bind, get_all_active_by_window, LOG_info, emit.
  destruct (db k AdminContext b e w) as [[ex|l] w1].
  - left. now exists ex, w1.
  - right.
    pose proof (each_returns World bus CONF k (Logger "cinder")
                  (window_info b e) AdminContext b e l w1) as Ho.
    pose proof (each_events World bus CONF k (Logger "cinder")
                  AdminContext b e l w1) as Hev.
    pose proof (each_exists_calls World bus CONF k (Logger "cinder")
                  (window_info b e) AdminContext b e l w1) as Hex.
    destruct (for_each World l _ w1) as [[o w2] tl].
    cbn [outcome trace fst snd] in Ho, Hev, Hex. subst o.
    exists l, tl, w2. now split; [split|].
Qed.

(** The course of a run: it stops while resolving the window, or it goes
    through the blocks of volumes, snapshots and backups, in that order
    and over one window, until a list query raises or all three are
    done. *)
Lemma main_course w :
  let o := outcome (run_main w) in
  let t := trace (run_main w) in
  (exists f, o = inl f
             /\ (t = [] \/ exists msg, t = [EvLog ERROR msg [] None]))
  \/ exists b e,
       ltb b e = true
       /\ ((exists ex,
              o = inl (Raise ex)
              /\ t = opening b e ++ [failed_query Volume b e ex])
           \/ (exists vs tv ex,
                 loop_trace Volume b e vs tv
                 /\ o = inl (Raise ex)
                 /\ t = opening b e ++ block Volume b e vs tv
                        ++ [failed_query Snapshot b e ex])
           \/ (exists vs tv ss ts ex,
                 loop_trace Volume b e vs tv
                 /\ loop_trace Snapshot b e ss ts
                 /\ o = inl (Raise ex)
                 /\ t = opening b e ++ block Volume b e vs tv
                        ++ block Snapshot b e ss ts
                        ++ [failed_query Backup b e ex])
           \/ (exists vs tv ss ts bs tb,
                 loop_trace Volume b e vs tv
                 /\ loop_trace Snapshot b e ss ts
                 /\ loop_trace Backup b e bs tb
                 /\ o = inr tt
                 /\ t = opening b e ++ block Volume b e vs tv
                        ++ block Snapshot b e ss ts
                        ++ block Backup b e bs tb ++ [closing])).
Proof.
  intros o t. subst o t.
  destruct (time_error_outcomes (Logger "cinder") (fst (clock w))
              (snd (clock w)) w)
    as [(b & e & Hlt & Hte) | [(ex & Hte) | (msg & Hte)]].
  2:{ left. rewrite (main_stops _ _ _ _ _ _ w w _ Hte).
      exists (Raise ex). split; [reflexivity | now left]. }
  2:{ left. rewrite (main_stops _ _ _ _ _ _ w w _ Hte).
      exists (SystemExit (-1)). split; [reflexivity | right; now exists msg]. }
  right. exists (utc b), (utc e). split; [exact Hlt|].
  rewrite main_eq. unfold main_by_kind, last_completed_audit_period,
    getLogger, get_admin_context.
  cbv zeta. rewrite (bind_silent _ _ _ w (clock w) w eq_refl).
  rewrite (bind_silent _ _ _ w (utc b, utc e) w Hte).
  unfold LOG_info. rewrite !bind_emit. cbn [fst snd outcome trace].
  fold (window_info (utc b) (utc e)).
  destruct (block_cases Volume (utc b) (utc e) w)
    as [(ex & w1 & Hv) | (vs & tv & w1 & Lv & Hv)].
  { left. exists ex. rewrite (bind_inl _ _ _ w _ _ _ Hv). now split. }
  rewrite (bind_inr _ _ _ w tt w1 _ Hv). cbn [fst snd outcome trace].
  destruct (block_cases Snapshot (utc b) (utc e) w1)
    as [(ex & w2 & Hs) | (ss & ts & w2 & Ls & Hs)].
  { right; left. exists vs, tv, ex.
    rewrite (bind_inl _ _ _ w1 _ _ _ Hs). now split; [|split]. }
  rewrite (bind_inr _ _ _ w1 tt w2 _ Hs). cbn [fst snd outcome trace].
  destruct (block_cases Backup (utc b) (utc e) w2)
    as [(ex & w3 & Hb) | (bs & tb & w3 & Lb & Hb)].
  { right; right; left. exists vs, tv, ss, ts, ex.
    rewrite (bind_inl _ _ _ w2 _ _ _ Hb).
    split; [exact Lv|]. split; [exact Ls|]. split; [reflexivity|].
    cbn [fst snd outcome trace]. reflexivity. }
  right; right; right. exists vs, tv, ss, ts, bs, tb.
  rewrite (bind_inr _ _ _ w2 tt w3 _ Hb). cbn [fst snd outcome trace emit].
  split; [exact Lv|]. split; [exact Ls|]. split; [exact Lb|].
  split; [reflexivity|]. reflexivity.
Qed.

Lemma skeleton_app t1 t2 : skeleton (t1 ++ t2) = skeleton t1 ++ skeleton t2.
Proof. apply filter_app. Qed.

(** The loop over the records makes no list query and writes no INFO
    entry. *)
Lemma loop_quiet k b e l tl :
  loop_trace k b e l tl ->
  skeleton tl = [] /\ exists_calls_due tl = []
  /\ forall k' ctx b' e' res, ~ In (EvFetch k' ctx b' e' res) tl.
Proof.
  intros [H _]. induction H as [|ev tl Hev _ IH]; [repeat split; intros k' ctx b' e' res []|].
  destruct IH as (IH1 & IH2 & IH3).
  destruct ev as [lvl f a rs| |]; cbn in Hev; [|contradiction|].
  - destruct lvl; [| contradiction |];
      (split; [exact IH1|]; split; [exact IH2|];
       intros k' ctx b' e' res [Heq | Hin]; [discriminate | exact (IH3 _ _ _ _ _ Hin)]).
  - split; [exact IH1|]. split; [exact IH2|].
    intros k' ctx' b' e' res' [Heq | Hin]; [discriminate | exact (IH3 _ _ _ _ _ Hin)].
Qed.

Lemma skeleton_block k b e l tl :
  loop_trace k b e l tl -> skeleton (block k b e l tl) = block k b e l [].
Proof.
  intros H. destruct (loop_quiet _ _ _ _ _ H) as (Hs & _).
  unfold block. cbn. fold (skeleton tl). now rewrite Hs.
Qed.

(** X6: the list queries and the INFO entries of a run.  A run that stops
    while resolving the window makes no list query and writes no INFO
    entry.  Every other run announces one window with begin < end and
    queries volumes, then snapshots, then backups, each over that window
    with the admin context; after each query that returns it logs the
    number of records returned; it stops at the first query that raises,
    with that exception, and otherwise returns after the closing entry. *)
Theorem queries_and_counts_of_a_run w :
  let o := outcome (run_main w) in
  let s := skeleton (trace (run_main w)) in
  (exists f, o = inl f /\ s = [])
  \/ exists b e,
       ltb b e = true
       /\ let query k l :=
            [EvFetch k AdminContext b e (inr l);
             EvLog INFO
               match k with
               | Volume => "Found %d volumes"
               | Snapshot => "Found %d snapshots"
               | Backup => "Found %d backups"
               end [(""%string, ALen (List.length l))] None] in
          let raised k ex := [EvFetch k AdminContext b e (inl ex)] in
          (exists ex,
             o = inl (Raise ex) /\ s = opening b e ++ raised Volume ex)
          \/ (exists vs ex,
                o = inl (Raise ex)
                /\ s = opening b e ++ query Volume vs ++ raised Snapshot ex)
          \/ (exists vs ss ex,
                o = inl (Raise ex)
                /\ s = opening b e ++ query Volume vs ++ query Snapshot ss
                       ++ raised Backup ex)
          \/ (exists vs ss bs,
                o = inr tt
                /\ s = opening b e ++ query Volume vs ++ query Snapshot ss
                       ++ query Backup bs
                       ++ [EvLog INFO "Volume usage audit completed" []
                             None]).
Proof.
  intros o s. subst o s.
  destruct (main_course w)
    as [(f & Ho & Ht)
       | (b & e & Hlt &
          [(ex & Ho & Ht)
          | [(vs & tv & ex & Lv & Ho & Ht)
            | [(vs & tv & ss & ts & ex & Lv & Ls & Ho & Ht)
              | (vs & tv & ss & ts & bs & tb & Lv & Ls & Lb & Ho & Ht)]]])].
  - left. exists f. split; [exact Ho|].
    destruct Ht as [-> | (msg & ->)]; reflexivity.
  - right. exists b, e. split; [exact Hlt|]. left. exists ex.
    split; [exact Ho|]. now rewrite Ht.
  - right. exists b, e. split; [exact Hlt|]. right; left. exists vs, ex.
    split; [exact Ho|].
    rewrite Ht, !skeleton_app, (skeleton_block _ _ _ _ _ Lv).
    now destruct Lv.
  - right. exists b, e. split; [exact Hlt|]. right; right; left.
    exists vs, ss, ex. split; [exact Ho|].
    now rewrite Ht, !skeleton_app, (skeleton_block _ _ _ _ _ Lv),
      (skeleton_block _ _ _ _ _ Ls).
  - right. exists b, e. split; [exact Hlt|]. right; right; right.
    exists vs, ss, bs. split; [exact Ho|].
    now rewrite Ht, !skeleton_app, (skeleton_block _ _ _ _ _ Lv),
      (skeleton_block _ _ _ _ _ Ls), (skeleton_block _ _ _ _ _ Lb).
Qed.

Lemma no_failed_query_in_block k b e l tl k' ctx b' e' ex :
  loop_trace k b e l tl ->
  ~ In (EvFetch k' ctx b' e' (inl ex)) (block k b e l tl).
Proof.
  intros H [Heq | [Heq | Hin]]; try discriminate.
  destruct (loop_quiet _ _ _ _ _ H) as (_ & _ & Hq). exact (Hq _ _ _ _ _ Hin).
Qed.

Lemma no_failed_query_in_opening b e k' ctx b' e' ex :
  ~ In (EvFetch k' ctx b' e' (inl ex)) (opening b e).
Proof. intros [Heq | [Heq | []]]; discriminate. Qed.

(** X7: a list query that raises ends the run at once.  If the list query
    of a kind raised, the run ends with that very exception and the failed
    query is the last event of the trace: no record of that kind or of a
    later kind is queried or notified, and not even an error is logged. *)
Theorem failed_query_ends_the_run w k ctx b e ex :
  In (EvFetch k ctx b e (inl ex)) (trace (run_main w)) ->
  outcome (run_main w) = inl (Raise ex)
  /\ exists t0, trace (run_main w) = t0 ++ [EvFetch k ctx b e (inl ex)]
                /\ ~ In (EvFetch k ctx b e (inl ex)) t0.
Proof.
  destruct ctx. intros Hin.
  destruct (main_course w)
    as [(f & Ho & Ht)
       | (b' & e' & Hlt &
          [(ex' & Ho & Ht)
          | [(vs & tv & ex' & Lv & Ho & Ht)
            | [(vs & tv & ss & ts & ex' & Lv & Ls & Ho & Ht)
              | (vs & tv & ss & ts & bs & tb & Lv & Ls & Lb & Ho & Ht)]]])];
    [destruct Ht as [Ht | (msg & Ht)]; rewrite Ht in Hin;
     [contradiction | destruct Hin as [Heq | []]; discriminate] | ..];
    rewrite Ht in Hin |- *; rewrite Ho.
  - apply in_app_or in Hin as [Hin | [Heq | []]];
      [now apply no_failed_query_in_opening in Hin|].
    unfold failed_query in Heq; inversion Heq; subst.
    split; [reflexivity|]. eexists.
    split; [reflexivity | apply no_failed_query_in_opening].
  - rewrite app_assoc in Hin |- *.
    assert (Hno : forall k0 c0 b0 e0 x0,
              ~ In (EvFetch k0 c0 b0 e0 (inl x0))
                  (opening b' e' ++ block Volume b' e' vs tv)).
    { intros k0 c0 b0 e0 x0 H. apply in_app_or in H as [H | H];
        [now apply no_failed_query_in_opening in H
        | now apply (no_failed_query_in_block _ _ _ _ _ _ _ _ _ _ Lv) in H]. }
    apply in_app_or in Hin as [Hin | [Heq | []]]; [now apply Hno in Hin|].
    unfold failed_query in Heq; inversion Heq; subst.
    split; [reflexivity|]. eexists. split; [reflexivity | apply Hno].
  - rewrite !app_assoc in Hin |- *.
    assert (Hno : forall k0 c0 b0 e0 x0,
              ~ In (EvFetch k0 c0 b0 e0 (inl x0))
                  ((opening b' e' ++ block Volume b' e' vs tv)
                   ++ block Snapshot b' e' ss ts)).
    { intros k0 c0 b0 e0 x0 H. apply in_app_or in H as [H | H];
        [apply in_app_or in H as [H | H]|];
        [now apply no_failed_query_in_opening in H
        | now apply (no_failed_query_in_block _ _ _ _ _ _ _ _ _ _ Lv) in H
        | now apply (no_failed_query_in_block _ _ _ _ _ _ _ _ _ _ Ls) in H]. }
    apply in_app_or in Hin as [Hin | [Heq | []]]; [now apply Hno in Hin|].
    unfold failed_query in Heq; inversion Heq; subst.
    split; [reflexivity|]. eexists. split; [reflexivity | apply Hno].
  - exfalso.
    repeat (apply in_app_or in Hin as [Hin | Hin]);
      [now apply no_failed_query_in_opening in Hin
      | now apply (no_failed_query_in_block _ _ _ _ _ _ _ _ _ _ Lv) in Hin
      | now apply (no_failed_query_in_block _ _ _ _ _ _ _ _ _ _ Ls) in Hin
      | now apply (no_failed_query_in_block _ _ _ _ _ _ _ _ _ _ Lb) in Hin
      | destruct Hin as [Heq | []]; discriminate].
Qed.

Lemma before_app_l a b t1 t2 : before a b t1 -> before a b (t1 ++ t2).
Proof.
  intros (l1 & l2 & l3 & ->). exists l1, l2, (l3 ++ t2).
  rewrite <- app_assoc. cbn [app]. rewrite <- app_assoc. reflexivity.
Qed.

Lemma before_app_r a b t1 t2 : before a b t2 -> before a b (t1 ++ t2).
Proof.
  intros (l1 & l2 & l3 & ->). exists (t1 ++ l1), l2, l3.
  now rewrite <- app_assoc.
Qed.

Lemma accounted_app t1 t2 :
  accounted t1 -> accounted t2 -> accounted (t1 ++ t2).
Proof.
  intros H1 H2 k ctx r s x res Hin.
  apply in_app_or in Hin as [Hin | Hin].
  - destruct (H1 _ _ _ _ _ _ Hin) as (Hc & b & e & l & Hb & Hr & Hok).
    split; [exact Hc|]. exists b, e, l.
    split; [now apply before_app_l | now split].
  - destruct (H2 _ _ _ _ _ _ Hin) as (Hc & b & e & l & Hb & Hr & Hok).
    split; [exact Hc|]. exists b, e, l.
    split; [now apply before_app_r | now split].
Qed.

Lemma accounted_block k b e l tl :
  loop_trace k b e l tl -> accounted (block k b e l tl).
Proof.
  intros [H _] k' ctx r s x res [Heq | [Heq | Hin]]; try discriminate.
  pose proof (proj1 (Forall_forall _ _) H _ Hin) as (-> & -> & Hr & Hok).
  split; [reflexivity|]. exists b, e, l. split; [|now split].
  apply before_head. now right.
Qed.

Lemma accounted_quiet t : filter is_notify t = [] -> accounted t.
Proof.
  intros H k ctx r s x res Hin.
  assert (Hf : In (EvNotify k ctx r s x res) (filter is_notify t))
    by (apply filter_In; now split).
  now rewrite H in Hf.
Qed.

(** X8: a run notifies about nothing it did not fetch.  Every notifier
    call of a run is made with the admin context, about a record that an
    earlier list query of the same kind returned in this run, and its
    extra info goes with its suffix: the window of that query stringified
    for "exists", str(created_at) of the record in both fields for
    "create.start" and "create.end", and str(deleted_at), which is then
    set, for "delete.start" and "delete.end".  No other suffix is used. *)
Theorem every_call_is_accounted_for w k ctx r s x res :
  In (EvNotify k ctx r s x res) (trace (run_main w)) ->
  ctx = AdminContext
  /\ In s ["exists"; "create.start"; "create.end";
           "delete.start"; "delete.end"]%string
  /\ exists b e l,
       before (EvFetch k AdminContext b e (inr l))
         (EvNotify k ctx r s x res) (trace (run_main w))
       /\ In r l
       /\ ((s = "exists"%string
            /\ x = {| audit_period_beginning := str b;
                      audit_period_ending := str e |})
           \/ ((s = "create.start"%string \/ s = "create.end"%string)
               /\ x = {| audit_period_beginning := str (created_at r);
                         audit_period_ending := str (created_at r) |})
           \/ ((s = "delete.start"%string \/ s = "delete.end"%string)
               /\ exists d,
                    deleted_at r = Some d
                    /\ x = {| audit_period_beginning := str d;
                              audit_period_ending := str d |})).
Proof.
  intros Hin.
  assert (Hacc : accounted (trace (run_main w))).
  { destruct (main_course w)
      as [(f & Ho & Ht)
         | (b & e & Hlt &
            [(ex & Ho & Ht)
            | [(vs & tv & ex & Lv & Ho & Ht)
              | [(vs & tv & ss & ts & ex & Lv & Ls & Ho & Ht)
                | (vs & tv & ss & ts & bs & tb & Lv & Ls & Lb & Ho & Ht)]]])].
    - apply accounted_quiet. now destruct Ht as [-> | (msg & ->)].
    - rewrite Ht. now apply accounted_quiet.
    - rewrite Ht.
      repeat first [apply accounted_app | now apply accounted_block
                   | now apply accounted_quiet].
    - rewrite Ht.
      repeat first [apply accounted_app | now apply accounted_block
                   | now apply accounted_quiet].
    - rewrite Ht.
      repeat first [apply accounted_app | now apply accounted_block
                   | now apply accounted_quiet]. }
  destruct (Hacc _ _ _ _ _ _ Hin) as (Hc & b & e & l & Hb & Hr & Hok).
  split; [exact Hc|]. split.
  - destruct Hok as [[-> _] | [[[-> | ->] _] | [[-> | ->] _]]]; in_list.
  - exists b, e, l. split; [exact Hb|]. split; [exact Hr|]. exact Hok.
Qed.

(** X9: every fetched record gets its "exists" call, once.  Whatever
    [send_actions] is and whichever notifier calls fail, the "exists"
    calls of a run are, in order, exactly one per record returned by its
    list queries, each with the window of the query stringified. *)
Theorem one_exists_call_per_fetched_record w :
  exists_calls (trace (run_main w)) = exists_calls_due (trace (run_main w)).
Proof.
  assert (Hb : forall k b e l tl,
            loop_trace k b e l tl ->
            exists_calls (block k b e l tl)
            = exists_calls_due (block k b e l tl)).
  { intros k b e l tl H. destruct (loop_quiet _ _ _ _ _ H) as (_ & Hd & _).
    destruct H as [_ Hx].
    change (exists_calls (block k b e l tl)) with (exists_calls tl).
    change (exists_calls_due (block k b e l tl))
      with (map (fun r => (k, r, "exists"%string, window_info b e)) l
            ++ exists_calls_due tl).
    now rewrite Hd, app_nil_r. }
  destruct (main_course w)
    as [(f & Ho & Ht)
       | (b & e & Hlt &
          [(ex & Ho & Ht)
          | [(vs & tv & ex & Lv & Ho & Ht)
            | [(vs & tv & ss & ts & ex & Lv & Ls & Ho & Ht)
              | (vs & tv & ss & ts & bs & tb & Lv & Ls & Lb & Ho & Ht)]]])].
  - now destruct Ht as [-> | (msg & ->)].
  - now rewrite Ht.
  - rewrite Ht, !exists_calls_app, !exists_calls_due_app, (Hb _ _ _ _ _ Lv).
    reflexivity.
  - rewrite Ht, !exists_calls_app, !exists_calls_due_app, (Hb _ _ _ _ _ Lv),
      (Hb _ _ _ _ _ Ls). reflexivity.
  - rewrite Ht, !exists_calls_app, !exists_calls_due_app, (Hb _ _ _ _ _ Lv),
      (Hb _ _ _ _ _ Ls), (Hb _ _ _ _ _ Lb). reflexivity.
Qed.






(** X13: the exit status, once the command line has been parsed.  From
    there on a run ends with [sys.exit] exactly when both bounds resolve
    (each to its parsed option, or to the default when the option is
    absent or empty) and the resolved end is not after the resolved start,
    also when both come from the default period; the status is then -1.
    In that case the run has done nothing but log the error that carries
    the two bounds.  Neither [_time_error] nor the rest of [main] exits on
    any other path. *)
Theorem exit_status_iff_window_not_increasing w :
  (forall c,
     outcome (run_main w) = inl (SystemExit c)
     <-> c = (-1)%Z
         /\ exists b e,
              resolved (start_time CONF) (fst (clock w)) = Some b
              /\ resolved (end_time CONF) (snd (clock w)) = Some e
              /\ leb (utc e) (utc b) = true)
  /\ (forall b e,
        resolved (start_time CONF) (fst (clock w)) = Some b ->
        resolved (end_time CONF) (snd (clock w)) = Some e ->
        leb (utc e) (utc b) = true ->
        run_main w
        = (inl (SystemExit (-1)), w,
           [EvLog ERROR
              ("The end time (" ++ str (utc e)
               ++ ") must be after the start time ("
               ++ str (utc b) ++ ").")%string [] None])).
Proof.
  assert (Hexit : forall b e,
            resolved (start_time CONF) (fst (clock w)) = Some b ->
            resolved (end_time CONF) (snd (clock w)) = Some e ->
            leb (utc e) (utc b) = true ->
            run_main w
            = (inl (SystemExit (-1)), w,
               [EvLog ERROR (time_error_msg (utc b) (utc e)) [] None])).
  { intros b e Hb He Hle. apply main_stops.
    rewrite (time_error_resolved World CONF (Logger "cinder") _ _ b e w
               Hb He).
    now rewrite Hle. }
  split; [|exact Hexit].
  intros c. split.
  - intros Ho.
    destruct (resolved (start_time CONF) (fst (clock w))) as [b|] eqn:Hb.
    + destruct (resolved (end_time CONF) (snd (clock w))) as [e|] eqn:He.
      * destruct (leb (utc e) (utc b)) eqn:Hle.
        -- rewrite (Hexit b e eq_refl eq_refl Hle) in Ho.
           injection Ho as <-. split; [reflexivity | now exists b, e].
        -- pose proof (time_error_resolved World CONF (Logger "cinder")
                         _ _ b e w Hb He) as Hte.
           rewrite Hle in Hte.
           destruct (main_stretch World clock db bus CONF w _ w Hte)
             as (_ & _ & _ & F).
           destruct (F _ Ho) as (ex & _ & _ & _ & _ & _ & Hf & _).
           discriminate.
      * destruct (time_error_unparsed World CONF (Logger "cinder")
                    (fst (clock w)) (snd (clock w)) w) as (ex & _ & Hte).
        -- right. split; [now exists b | exact He].
        -- rewrite (main_stops World clock db bus CONF _ w w _ Hte) in Ho.
           discriminate.
    + destruct (time_error_unparsed World CONF (Logger "cinder")
                  (fst (clock w)) (snd (clock w)) w) as (ex & _ & Hte).
      * now left.
      * rewrite (main_stops World clock db bus CONF _ w w _ Hte) in Ho.
        discriminate.
  - intros (-> & b & e & Hb & He & Hle).
    now rewrite (Hexit b e Hb He Hle).
Qed.

End Runs.

(** *** Printing and parsing a bound *)

Section Parsing.
Local Open Scope N_scope.

Lemma N_forall_below (f : N -> bool) (n : N) :
  forallb f (map N.of_nat (List.seq 0%nat (N.to_nat n))) = true ->
  forall v, v < n -> f v = true.
Proof.
  intros H v Hv. rewrite forallb_forall in H. apply H.
  rewrite <- (N2Nat.id v). apply in_map, in_seq. lia.
Qed.

Lemma digit_code n : N_of_ascii (digit n) = 48 + n mod 10.
Proof.
  unfold digit. apply N_ascii_embedding.
  assert (n mod 10 < 10) by (apply N.mod_lt; lia).
  pose proof (N.le_0_l (n mod 10)). lia.
Qed.

Lemma digit_is_digit n : Strptime.d_ (digit n) = true.
Proof.
  unfold Strptime.d_, Strptime.between. rewrite digit_code.
  assert (n mod 10 < 10) by (apply N.mod_lt; lia).
  pose proof (N.le_0_l (n mod 10)).
  apply andb_true_iff. split; apply N.leb_le; lia.
Qed.

Lemma digit_is_no_space n : Strptime.s_ (digit n) = false.
Proof.
  unfold Strptime.s_, Strptime.between. rewrite digit_code.
  assert (n mod 10 < 10) by (apply N.mod_lt; lia).
  pose proof (N.le_0_l (n mod 10)).
  repeat (apply orb_false_iff; split);
    first [apply andb_false_iff; right; apply N.leb_gt; lia
          | apply N.eqb_neq; lia].
Qed.

Lemma chars_app a b : chars (a ++ b)%string = (chars a ++ chars b)%list.
Proof.
  unfold chars. induction a as [|c a IH]; cbn; [reflexivity | now rewrite IH].
Qed.

Lemma chars_pad2 v : chars (pad 2 v) = [digit (v / 10); digit v].
Proof. reflexivity. Qed.

Lemma chars_pad4 v :
  chars (pad 4 v)
  = [digit (v / 10 / 10 / 10); digit (v / 10 / 10); digit (v / 10); digit v].
Proof. reflexivity. Qed.

Lemma int_year y : y < 10000 -> Strptime.int (chars (pad 4 y)) = y.
Proof.
  intros H. apply N.eqb_eq.
  apply (N_forall_below (fun y => Strptime.int (chars (pad 4 y)) =? y) 10000);
    [|exact H].
  vm_compute. reflexivity.
Qed.

Lemma below_60 (P : N -> Prop) :
  (forall i, (i < 60)%nat -> P (N.of_nat i)) -> forall v, v < 60 -> P v.
Proof. intros H v Hv. rewrite <- (N2Nat.id v). apply H. lia. Qed.

Ltac sixty_cases :=
  let i := fresh "i" in let Hi := fresh "Hi" in let rest := fresh "rest" in
  apply below_60; intros i Hi;
  do 60 (destruct i as [|i];
         [try (intros _); try (intros rest; split; reflexivity)|]);
  lia.

Lemma re_M_whole v : v < 60 -> matched_whole Strptime.re_M v.
Proof. revert v. sixty_cases. Qed.

Lemma re_S_whole v : v < 60 -> matched_whole Strptime.re_S v.
Proof. revert v. sixty_cases. Qed.

Lemma re_H_whole v : v < 24 -> matched_whole Strptime.re_H v.
Proof.
  assert (G : forall v, v < 60 -> v < 24 -> matched_whole Strptime.re_H v).
  { apply (below_60 (fun v => v < 24 -> matched_whole Strptime.re_H v)).
    intros i Hi.
    do 24 (destruct i as [|i]; [intros _ rest; split; reflexivity|]).
    intros Hc. lia. }
  intros H. apply G; lia.
Qed.

Lemma re_m_whole v : 1 <= v -> v <= 12 -> matched_whole Strptime.re_m v.
Proof.
  assert (G : forall v, v < 60 -> 1 <= v -> v <= 12
                        -> matched_whole Strptime.re_m v).
  { apply (below_60 (fun v => 1 <= v -> v <= 12
                              -> matched_whole Strptime.re_m v)).
    intros i Hi. destruct i as [|i]; [intros Hc; lia|].
    do 12 (destruct i as [|i]; [intros _ _ rest; split; reflexivity|]).
    intros _ Hc. lia. }
  intros H1 H2. apply G; lia.
Qed.

Lemma re_d_whole v : 1 <= v -> v <= 31 -> matched_whole Strptime.re_d v.
Proof.
  assert (G : forall v, v < 60 -> 1 <= v -> v <= 31
                        -> matched_whole Strptime.re_d v).
  { apply (below_60 (fun v => 1 <= v -> v <= 31
                              -> matched_whole Strptime.re_d v)).
    intros i Hi. destruct i as [|i]; [intros Hc; lia|].
    do 31 (destruct i as [|i]; [intros _ _ rest; split; reflexivity|]).
    intros _ Hc. lia. }
  intros H1 H2. apply G; lia.
Qed.

Lemma re_Y_whole y rest :
  hd_error (Strptime.re_Y (chars (pad 4 y) ++ rest)%list)
  = Some (chars (pad 4 y), rest).
Proof.
  rewrite chars_pad4. unfold Strptime.re_Y, Strptime.seq, Strptime.cls.
  cbn [app flat_map map fst snd]. rewrite !digit_is_digit.
  cbn [app flat_map map fst snd]. rewrite !digit_is_digit.
  cbn [app flat_map map fst snd]. rewrite !digit_is_digit.
  cbn [app flat_map map fst snd]. rewrite !digit_is_digit.
  reflexivity.
Qed.

Lemma group_hd {A} m (k : N -> Strptime.text -> list (A * Strptime.text))
    s txt rest x :
  hd_error (m s) = Some (txt, rest) ->
  hd_error (k (Strptime.int txt) rest) = Some x ->
  hd_error (Strptime.group m k s) = Some x.
Proof.
  unfold Strptime.group. destruct (m s) as [|[t r] others]; [discriminate|].
  intros [= -> ->]. cbn [flat_map fst snd].
  destruct (k (Strptime.int txt) rest); [discriminate|]. now intros [= ->].
Qed.

Lemma skip_hd {A} m (k : Strptime.text -> list (A * Strptime.text))
    s txt rest x :
  hd_error (m s) = Some (txt, rest) ->
  hd_error (k rest) = Some x ->
  hd_error (Strptime.skip m k s) = Some x.
Proof.
  unfold Strptime.skip. destruct (m s) as [|[t r] others]; [discriminate|].
  intros [= -> ->]. cbn [flat_map fst snd].
  destruct (k rest); [discriminate|]. now intros [= ->].
Qed.

Lemma lit_hd c rest : hd_error (Strptime.lit c (c :: rest)) = Some ([c], rest).
Proof. unfold Strptime.lit, Strptime.cls. now rewrite Ascii.eqb_refl. Qed.

Lemma blank_hd n rest :
  hd_error (Strptime.plus Strptime.s_ (" "%char :: digit n :: rest))
  = Some ([" "%char], digit n :: rest).
Proof.
  cbn [Strptime.plus].
  change (Strptime.s_ " "%char) with true. cbv iota.
  now rewrite digit_is_no_space.
Qed.

Lemma valid_in_ranges t : Strptime.valid t = true -> in_ranges t.
Proof.
  unfold Strptime.valid, in_ranges. rewrite !andb_true_iff, !N.leb_le.
  intros (((((((((H1 & H2) & H3) & H4) & H5) & H6) & H7) & H8) & H9) & _).
  assert (Strptime.days_in_month (year t) (month t) <= 31).
  { unfold Strptime.days_in_month.
    destruct (month t =? 2); [destruct (Strptime.is_leap (year t))|];
      [lia | lia |].
    destruct ((month t =? 4) || (month t =? 6) || (month t =? 9)
              || (month t =? 11))%bool; lia. }
  lia.
Qed.

(** The printed form of a whole second, followed by anything, is matched
    by the pattern of the format up to where that begins. *)
Lemma format_regex_isoformat t rest :
  in_ranges t -> microsecond t = 0 ->
  hd_error (Strptime.format_regex (chars (isoformat_naive t) ++ rest)%list)
  = Some (t, rest).
Proof.
  intros (HY & [Hm1 Hm2] & [Hd1 Hd2] & HH & HM & HS) Hus.
  destruct t as [Y m d H M S us].
  cbn [year month day hour minute second microsecond] in *. subst us.
  unfold isoformat_naive. cbn [year month day hour minute second microsecond].
  change (0 =? 0) with true. cbv iota.
  rewrite !chars_app, <- !app_assoc, !chars_pad2.
  cbn [chars list_ascii_of_string app].
  unfold Strptime.format_regex.
  eapply group_hd; [apply re_Y_whole|]. rewrite (int_year Y HY).
  eapply skip_hd; [apply lit_hd|].
  eapply group_hd; [apply (re_m_whole m Hm1 Hm2)|].
  rewrite (proj2 (re_m_whole m Hm1 Hm2 [])).
  eapply skip_hd; [apply lit_hd|].
  eapply group_hd; [apply (re_d_whole d Hd1 Hd2)|].
  rewrite (proj2 (re_d_whole d Hd1 Hd2 [])).
  eapply skip_hd; [apply blank_hd|].
  eapply group_hd; [apply (re_H_whole H HH)|].
  rewrite (proj2 (re_H_whole H HH [])).
  eapply skip_hd; [apply lit_hd|].
  eapply group_hd; [apply (re_M_whole M HM)|].
  rewrite (proj2 (re_M_whole M HM [])).
  eapply skip_hd; [apply lit_hd|].
  eapply group_hd; [apply (re_S_whole S HS)|].
  rewrite (proj2 (re_S_whole S HS [])).
  reflexivity.
Qed.

Lemma round_trip t :
  Strptime.valid t = true -> microsecond t = 0 ->
  Strptime.strptime (isoformat_naive t) = Some t.
Proof.
  intros Hv Hus. unfold Strptime.strptime.
  pose proof (format_regex_isoformat t [] (valid_in_ranges t Hv) Hus) as Hh.
  rewrite app_nil_r in Hh. fold (chars (isoformat_naive t)).
  destruct (Strptime.format_regex (chars (isoformat_naive t)))
    as [|[t' r] others]; [discriminate|].
  cbn in Hh. injection Hh as -> ->. now rewrite Hv.
Qed.

Lemma chars_isoformat t :
  chars (isoformat_naive t)
  = (chars (isoformat_naive (whole_second t))
     ++ chars (if (microsecond t =? 0)%N then ""%string
               else ("." ++ pad 6 (microsecond t))%string))%list.
Proof.
  unfold isoformat_naive, whole_second.
  cbn [year month day hour minute second microsecond].
  change (0 =? 0) with true. cbv iota.
  rewrite !chars_app, <- !app_assoc. reflexivity.
Qed.

(** X10: a bound printed without its zone parses back.  For every valid
    datetime of a whole second, its printed form YYYY-MM-DD HH:MM:SS is
    accepted by the parser of the overrides and gives that datetime
    back. *)
Theorem printed_whole_second_parses_back t :
  Strptime.valid t = true -> microsecond t = 0 ->
  Strptime.strptime (isoformat_naive t) = Some t.
Proof. exact (round_trip t). Qed.

(** X11: a bound as the script prints it is not accepted as an override.
    The window bounds are logged and sent stringified with their UTC
    offset; for every valid datetime, that string, ending in +00:00 (and
    with a fraction when the microseconds are not zero), fails to parse as
    a start or end time: the pattern matches up to the seconds and the
    rest is left unconverted. *)
Theorem printed_bound_is_no_override t :
  Strptime.valid t = true ->
  Strptime.strptime (str (utc t)) = None.
Proof.
  intros Hv. unfold Strptime.strptime, str, utc, replace_tzinfo.
  cbn [naive tz utcoffset_str].
  fold (chars (isoformat_naive t ++ "+00:00")%string).
  rewrite chars_app, chars_isoformat, <- app_assoc.
  assert (Hr : in_ranges (whole_second t))
    by (apply valid_in_ranges in Hv; exact Hv).
  pose proof (format_regex_isoformat (whole_second t)
                (chars (if (microsecond t =? 0)%N then ""%string
                        else ("." ++ pad 6 (microsecond t))%string)
                 ++ chars "+00:00")%list Hr eq_refl) as Hh.
  destruct (Strptime.format_regex _) as [|[t' r] others]; [reflexivity|].
  cbn in Hh. injection Hh as -> ->.
  destruct (microsecond t =? 0); reflexivity.
Qed.

Lemma group_all {A} (P : A * Strptime.text -> Prop) m
    (k : N -> Strptime.text -> list (A * Strptime.text)) s :
  (forall v r, Forall P (k v r)) -> Forall P (Strptime.group m k s).
Proof.
  intros H. unfold Strptime.group. apply Forall_flat_map, Forall_forall.
  intros ar _. apply H.
Qed.

Lemma skip_all {A} (P : A * Strptime.text -> Prop) m
    (k : Strptime.text -> list (A * Strptime.text)) s :
  (forall r, Forall P (k r)) -> Forall P (Strptime.skip m k s).
Proof.
  intros H. unfold Strptime.skip. apply Forall_flat_map, Forall_forall.
  intros ar _. apply H.
Qed.

(** X12: what the parser of the overrides accepts.  Every accepted string
    gives a datetime that passes the range checks of the calendar (month,
    day of that month and year, hour, minute, second) and has no fraction
    of a second; printing it as YYYY-MM-DD HH:MM:SS and parsing again
    gives the same datetime, so every accepted spelling of a bound stands
    for its canonical one. *)
Theorem accepted_override_is_a_whole_second s t :
  Strptime.strptime s = Some t ->
  Strptime.valid t = true /\ microsecond t = 0
  /\ Strptime.strptime (isoformat_naive t) = Some t.
Proof.
  intros H. unfold Strptime.strptime in H.
  assert (Hall : Forall (fun c => microsecond (fst c) = 0)
                   (Strptime.format_regex (list_ascii_of_string s))).
  { unfold Strptime.format_regex.
    repeat first [apply group_all; intros ? ? | apply skip_all; intros ?].
    now constructor. }
  destruct (Strptime.format_regex (list_ascii_of_string s))
    as [|[t' [|c r]] others]; try discriminate.
  destruct (Strptime.valid t') eqn:Hv; [|discriminate].
  injection H as <-.
  apply Forall_inv in Hall. cbn in Hall.
  split; [exact Hv|]. split; [exact Hall|]. now apply round_trip.
Qed.

End Parsing.

Import Example.


Lemma unparseable_override_is_fatal_witness :
  exists ex,
    exn_class ex = "ValueError"%string
    /\ main unit clock db bus_ok
         (mkConf (Some "2024-03-01T00:00:00"%string)
            (Some "tomorrow"%string) true) tt
       = (inl (Raise ex), tt, []).
Proof.
  apply (unparseable_override_is_fatal unit clock db bus_ok _ tt "tomorrow").
  - discriminate.
  - vm_compute. reflexivity.
  - right. reflexivity.
Defined.

Lemma returned_window_is_increasing_witness :
  ltb begin0 end1 = true.
Proof.
  exact (proj1 (returned_window_is_increasing unit (hour_window false)
                  (Logger "cinder") (at_ 1 0) (at_ 2 0) tt
                  (begin0, end1) tt [] eq_refl)).
Defined.

Lemma all_notifications_when_none_fails_witness :
  notify_calls (trace (volume_action bus_ok vol2))
  = [(Volume, vol2, "exists"%string, window_info begin0 end1);
     (Volume, vol2, "create.start"%string, moment_info (utc (at_ 0 10)));
     (Volume, vol2, "create.end"%string, moment_info (utc (at_ 0 10)));
     (Volume, vol2, "delete.start"%string, moment_info (utc (at_ 0 40)));
     (Volume, vol2, "delete.end"%string, moment_info (utc (at_ 0 40)))].
Proof.
  apply (all_notifications_when_none_fails unit bus_ok (hour_window true)
           Volume (Logger "cinder") vol2 (window_info begin0 end1)
           AdminContext begin0 end1 tt).
  intros ev Hin. vm_compute in Hin.
  repeat (destruct Hin as [<- | Hin]; [reflexivity|]). contradiction.
Defined.

Lemma failed_query_ends_the_run_witness :
  outcome (main unit clock db_snapshots_down bus_ok (hour_window true) tt)
  = inl (Raise (mkExn "DBConnectionError" "connection lost")).
Proof.
  apply (failed_query_ends_the_run unit clock db_snapshots_down bus_ok
           (hour_window true) tt Snapshot AdminContext begin0 end1).
  in_trace.
Defined.

Lemma every_call_is_accounted_for_witness :
  exists b e l,
    before (EvFetch Snapshot AdminContext b e (inr l))
      (EvNotify Snapshot AdminContext snap1 "delete.start"
         (moment_info (utc (at_ 0 50))) (Some boom))
      (trace (main unit clock db bus_down (hour_window true) tt))
    /\ In snap1 l.
Proof.
  destruct (every_call_is_accounted_for unit clock db bus_down
              (hour_window true) tt Snapshot AdminContext snap1
              "delete.start" (moment_info (utc (at_ 0 50))) (Some boom))
    as (_ & _ & b & e & l & Hb & Hr & _).
  - in_trace.
  - exists b, e, l. split; assumption.
Defined.

(** The default period of a clock that runs backwards. *)
Lemma exit_status_iff_window_not_increasing_witness :
  main unit (fun _ => (at_ 2 0, at_ 1 0)) db bus_ok (mkConf None None true) tt
  = (inl (SystemExit (-1)), tt,
     [EvLog ERROR
        ("The end time (2024-03-01 01:00:00+00:00) must be after the "
         ++ "start time (2024-03-01 02:00:00+00:00).")%string [] None]).
Proof.
  exact (proj2 (exit_status_iff_window_not_increasing unit
                  (fun _ => (at_ 2 0, at_ 1 0)) db bus_ok
                  (mkConf None None true) tt)
           (at_ 2 0) (at_ 1 0) eq_refl eq_refl eq_refl).
Defined.

(** A volume created and deleted inside the window, over a notifier that
    is down: three calls fail, three errors are logged. *)
Lemma calls_and_errors_per_record_witness :
  List.length (filter is_error (trace (volume_action bus_down vol2))) = 3%nat
  /\ List.length (filter is_failed (trace (volume_action bus_down vol2)))
     = 3%nat.
Proof.
  pose proof (proj2 (proj2 (proj2
    (calls_and_errors_per_record unit bus_down (hour_window true) Volume
       (Logger "cinder") vol2 (window_info begin0 end1) AdminContext
       begin0 end1 tt)))) as H.
  split; [exact (eq_trans H eq_refl) | reflexivity].
Defined.

Lemma exists_helpers_log_differently_witness :
  exists dbg t,
    is_debug dbg = true
    /\ _backup_notify_usage unit bus_down (Logger "cinder") snap1
         (window_info begin0 end1) AdminContext tt
       = (inr tt, tt, t)
    /\ t = [EvNotify Backup AdminContext snap1 "exists"
              (window_info begin0 end1) (Some boom);
            EvLog ERROR "Exists backups notification failed: %s"
              [(""%string, AExn boom)] None].
Proof.
  exact (exists_helpers_log_differently unit bus_down Backup
           (Logger "cinder") snap1 (window_info begin0 end1) AdminContext
           tt).
Defined.

Lemma queries_and_counts_of_a_run_witness :
  exists b e,
    ltb b e = true
    /\ exists vs ss bs,
         skeleton (trace (main unit clock db bus_down (hour_window true) tt))
         = opening b e ++ block Volume b e vs [] ++ block Snapshot b e ss []
           ++ block Backup b e bs [] ++ [closing].
Proof.
  destruct (queries_and_counts_of_a_run unit clock db bus_down
              (hour_window true) tt)
    as [(f & Ho & _)
       | (b & e & Hlt &
          [(ex & Ho & _)
          | [(vs & ex & Ho & _)
            | [(vs & ss & ex & Ho & _) | (vs & ss & bs & _ & Hs)]]])];
    try (vm_compute in Ho; discriminate).
  exists b, e. split; [exact Hlt|]. now exists vs, ss, bs.
Defined.

Lemma one_exists_call_per_fetched_record_witness :
  exists_calls (trace (main unit clock db bus_down (hour_window true) tt))
  = [(Volume, vol1, "exists"%string, window_info begin0 end1);
     (Volume, vol2, "exists"%string, window_info begin0 end1);
     (Snapshot, snap1, "exists"%string, window_info begin0 end1)].
Proof.
  rewrite (one_exists_call_per_fetched_record unit clock db bus_down
             (hour_window true) tt).
  vm_compute. reflexivity.
Defined.

Lemma printed_whole_second_parses_back_witness :
  Strptime.strptime "2024-03-01 00:30:00" = Some (at_ 0 30).
Proof.
  exact (printed_whole_second_parses_back (at_ 0 30) eq_refl eq_refl).
Defined.

Lemma printed_bound_is_no_override_witness :
  Strptime.strptime "2024-03-01 00:00:00+00:00" = None.
Proof. exact (printed_bound_is_no_override (at_ 0 0) eq_refl). Defined.

Lemma accepted_override_is_a_whole_second_witness :
  Strptime.strptime "2024-03-01 07:05:09"
  = Some (mkDatetime 2024 3 1 7 5 9 0).
Proof.
  exact (proj2 (proj2 (accepted_override_is_a_whole_second
                         "2024-3-1   7:5:9" (mkDatetime 2024 3 1 7 5 9 0)
                         eq_refl))).
Defined.

End AuditExtra.
